(** * The /process/ endpoint of backend/fastapi_backend.py

    A shallow embedding of the request handler [process] and of the few
    Python library functions it relies on, followed by the properties of
    the handler.

    Python [str] values are sequences of Unicode code points and are
    modelled as [list N]; [bytes] values are [list byte].  The handler is
    an [async def]: it is embedded in a small free monad whose operations
    are the effects the handler performs (drawing a UUID, writing a file,
    calling the OCR adapter, creating a task, awaiting a gather), and an
    executable interpreter runs it against an event loop in which the
    completion order of the tasks is chosen by a schedule.

    The external collaborators (Pillow, the OCR module, the translation
    client, the speech module) are a type class: each call either raises
    or returns, and the properties hold for every instance.

    Layout: the definitions come first (library functions, data model,
    the handler, the interpreter, the summary [Run] of its executions, the
    observations of a trace, a concrete instance), then the lemmas, then
    the properties of the handler and their instances on concrete
    requests. *)

From Stdlib Require Import ZArith NArith Lia String Ascii.
From Stdlib Require Init.Byte.
From stdpp Require Import base list gmap.

Abbreviation str := (list N).
Abbreviation bytes := (list Init.Byte.byte).

(** ** String literals *)

Definition lit (s : string) : str :=
  (fun a => N_of_ascii a) <$> list_ascii_of_string s.
Arguments lit _%_string.

(** ** Python string methods *)

Module Py.

(** [s.startswith(p)] *)
Fixpoint startswith (s p : str) {struct p} : bool :=
  match p, s with
  | [], _ => true
  | c :: p', d :: s' => (c =? d)%N && startswith s' p'
  | _ :: _, [] => false
  end.

(** [s.endswith(p)] *)
Definition endswith (s p : str) : bool := startswith (reverse s) (reverse p).

(** The code points for which [str.isspace] holds; [str.strip] without an
    argument removes exactly these. *)
Definition isspace (c : N) : bool :=
  ((9 <=? c) && (c <=? 13) || (28 <=? c) && (c <=? 32)
   || (c =? 133) || (c =? 160) || (c =? 5760)
   || (8192 <=? c) && (c <=? 8202)
   || (c =? 8232) || (c =? 8233) || (c =? 8239) || (c =? 8287)
   || (c =? 12288))%N.

Fixpoint lstrip (s : str) : str :=
  match s with
  | c :: s' => if isspace c then lstrip s' else s
  | [] => []
  end.

Definition rstrip (s : str) : str := reverse (lstrip (reverse s)).

(** [s.strip()] *)
Definition strip (s : str) : str := rstrip (lstrip s).

(** [s.rfind(c)] for a one-character needle: the highest index holding
    [c], or -1. *)
Fixpoint rfind_from (i : Z) (c : N) (s : str) (last : Z) : Z :=
  match s with
  | [] => last
  | x :: s' => rfind_from (i + 1) c s' (if (x =? c)%N then i else last)
  end.

Definition rfind (s : str) (c : N) : Z := rfind_from 0 c s (-1).

(** The slice [s[i:]] for a non-negative [i]. *)
Definition slice_from (i : Z) (s : str) : str := drop (Z.to_nat i) s.

End Py.

(** ** posixpath *)

Module os_path.

Definition sep : N := 47.

(** [os.path.join(a, b)] with two arguments. *)
Definition join (a b : str) : str :=
  if Py.startswith b [sep] then b
  else if bool_decide (a = []) || Py.endswith a [sep] then a ++ b
  else a ++ [sep] ++ b.

(** [os.path.basename(p)]: [i = p.rfind('/') + 1; return p[i:]]. *)
Definition basename (p : str) : str :=
  Py.slice_from (Py.rfind p sep + 1) p.

End os_path.

(** ** uuid *)

(** A UUID is a 128-bit integer. *)
Record UUID := mkUUID { int : N; int_128 : (int <? 2 ^ 128)%N = true }.

(** One lower-case hexadecimal digit. *)
Definition hex_digit (d : N) : N := if (d <? 10)%N then 48 + d else 87 + d.

(** The [n] low hexadecimal digits of [v], most significant first. *)
Fixpoint hexdigits (n : nat) (v : N) : str :=
  match n with
  | O => []
  | S n' => hexdigits n' (v / 16) ++ [hex_digit (v mod 16)]
  end.

(** [UUID.hex]: ['%032x' % self.int]. *)
Definition hex (u : UUID) : str := hexdigits 32 (int u).
Arguments hex : simpl never.

(** ** Auxiliary notions for paths and digits *)

(** The directory part that [os.path.join] puts in front of a relative
    name. *)
Definition dir_prefix (a : str) : str :=
  if bool_decide (a = []) || Py.endswith a [os_path.sep] then a
  else a ++ [os_path.sep].

Definition is_hex_char (c : N) : Prop :=
  (48 <= c <= 57 \/ 97 <= c <= 102)%N.

(** ** Exceptions, requests and responses *)

Inductive Exn :=
| HTTPException (status_code : Z) (detail : str)
| AttributeError
| OSError (info : str)
| AdapterError (info : str).

(** [UploadFile]: the declared content type of the uploaded part, absent
    when the part carries none, and the bytes [await file.read()] yields. *)
Record UploadFile := { content_type : option str; read : bytes }.

(** The dictionary [process] returns, one field per key. *)
Record Payload := {
  image_url : str;
  text_kn : str;
  audio_kn : option str;
  text_en : str;
  audio_en : option str;
  text_hi : str;
  audio_hi : option str;
  error : option str
}.

(** ** The external collaborators

    Pillow, the OCR module, the translation client and the speech module
    are not part of this file of the repository; the handler is verified
    against their interface.  Each call either raises or returns. *)

Class Collaborators := {
  Image : Type;
  (** [Image.open(io.BytesIO(contents))] *)
  Image_open : bytes -> Exn + Image;
  (** [image.mode] *)
  mode : Image -> str;
  (** [image.convert(m)] *)
  convert : Image -> str -> Exn + Image;
  (** [extract_text(image, upload_filename)] *)
  extract_text : Image -> str -> Exn + str;
  (** [GoogleTranslator(source, target).translate(text)] *)
  GoogleTranslator_translate : str -> str -> str -> Exn + str;
  (** [text_to_speech(text, lang, filename)] *)
  text_to_speech : str -> str -> str -> Exn + unit;
  (** [os.getcwd()] when the module is loaded *)
  BASE_DIR : str
}.

(** ** The coroutine helpers, tasks and the trace of a request *)

(** An external call made from a worker thread. *)
Inductive Call :=
| CallTranslate (source target text : str)
| CallTTS (text lang filename : str).

(** The two [async def] helpers; a value of [Coroutine A] is a call of one
    of them, not yet run, whose result has type [A]. *)
Inductive Coroutine : Type -> Type :=
| async_tts (text lang filename : str) : Coroutine unit
| async_translate (text target_lang : str) : Coroutine str.

(** What the helper hands to [loop.run_in_executor]. *)
Definition call_of {A} (c : Coroutine A) : Call :=
  match c with
  | async_tts text lang filename => CallTTS text lang filename
  | async_translate text target_lang => CallTranslate (lit "kn") target_lang text
  end.

(** An [asyncio.Task]: its identity and the coroutine it wraps. *)
Record Task (A : Type) := mkTask { tid : nat; coro : Coroutine A }.
Arguments mkTask {A}.
Arguments tid {A}.
Arguments coro {A}.

(** ** The world and the event loop *)

(** How [with open(path, "wb") as f: f.write(data)] ends: the bytes are in
    the file; or [open] raises and nothing has changed; or [open] has
    created (or emptied) the file and writing or closing it raises, with
    the first [kept] bytes left in the file. *)
Inductive Disk :=
| DiskOk
| OpenRaises (e : Exn)
| WriteRaises (kept : nat) (e : Exn).

Definition write_error (d : Disk) : option Exn :=
  match d with
  | DiskOk => None
  | OpenRaises e | WriteRaises _ e => Some e
  end.

Definition write_to (d : Disk) (path : str) (data : bytes)
    (files : gmap str bytes) : gmap str bytes :=
  match d with
  | DiskOk => <[path := data]> files
  | OpenRaises _ => files
  | WriteRaises kept _ => <[path := take kept data]> files
  end.

(** The file system below the working directory; the source of
    randomness behind [uuid.uuid4()]: the [n]-th call returns [entropy n];
    and the state of the storage: the [n]-th attempt to write a file ends
    as [disk n] says. *)
Record World := mkWorld {
  fs : gmap str bytes;
  entropy : nat -> UUID;
  drawn : nat;
  disk : nat -> Disk;
  writes : nat
}.

(** How the next attempt to write a file ends. *)
Definition storing (w : World) : Disk := disk w (writes w).

(** The tasks of the request: [next_tid] tasks have been created so far,
    those in [running] have not finished. *)
Record Loop := mkLoop { next_tid : nat; running : list nat }.

Definition finished (l : Loop) (t : nat) : bool :=
  (t <? next_tid l) && negb (bool_decide (t ∈ running l)).

(** A task completes: the result of its executor call reaches the loop. *)
Definition complete (t : nat) (l : Loop) : Loop :=
  mkLoop (next_tid l) (filter (fun t' => t' <> t) (running l)).

(** The awaited tasks are given with the exception their coroutine ends
    in, if any.  [asyncio.gather] fails with the exception of the first
    awaited task seen to have failed. *)
Fixpoint first_failed (l : Loop) (ts : list (nat * option Exn)) : option Exn :=
  match ts with
  | [] => None
  | (t, Some e) :: ts' => if finished l t then Some e else first_failed l ts'
  | (_, None) :: ts' => first_failed l ts'
  end.

Inductive Awaited := Ready | Failed (e : Exn) | Stalled.

Inductive Outcome (R : Type) : Type :=
| Returned (r : R)
| Raised (e : Exn)
| Pending.
Arguments Returned {R}.
Arguments Raised {R}.
Arguments Pending {R}.

Definition of_result {X} (r : Exn + X) : Outcome X :=
  match r with inl e => Raised e | inr x => Returned x end.

(** The status code FastAPI answers with. *)
Definition status {R} (o : Outcome R) : option Z :=
  match o with
  | Returned _ => Some 200%Z
  | Raised (HTTPException code _) => Some code
  | Raised _ => Some 500%Z
  | Pending => None
  end.

Section Backend.

Context `{Collaborators}.

Definition STATIC_DIR : str := os_path.join BASE_DIR (lit "static").
Definition AUDIO_DIR : str := os_path.join STATIC_DIR (lit "audio").
Definition UPLOADS_DIR : str := os_path.join STATIC_DIR (lit "uploads").

(** The result of awaiting the helper: that of its one executor call. *)
Definition result_of {A} (c : Coroutine A) : Exn + A :=
  match c in Coroutine A return Exn + A with
  | async_tts text lang filename => text_to_speech text lang filename
  | async_translate text target_lang =>
      GoogleTranslator_translate (lit "kn") target_lang text
  end.

Definition failure {A} (c : Coroutine A) : option Exn :=
  match result_of c with inl e => Some e | inr _ => None end.

Inductive Event :=
| EvUuid (u : UUID)
| EvWrite (path : str) (data : bytes)
| EvWriteFailed (path : str) (e : Exn)
| EvOcr (image : Image) (filename : str) (result : Exn + str)
| EvCreate (t : nat) (call : Call)
| EvDone (t : nat).

(** ** The handler as a program *)

(** The operations of the handler that touch the world or the loop. *)
Inductive Eff : Type -> Type :=
| uuid4 : Eff UUID
| write_file (path : str) (data : bytes) : Eff unit
| call_extract_text (image : Image) (filename : str) : Eff str
| create_task {A} (c : Coroutine A) : Eff (Task A)
| gather2 {A B} (t1 : Task A) (t2 : Task B) : Eff (A * B)
| gather3 {A B C} (t1 : Task A) (t2 : Task B) (t3 : Task C) : Eff (A * B * C).

Inductive Async (R : Type) : Type :=
| Return (r : R)
| Raise (e : Exn)
| Await {X : Type} (op : Eff X) (k : X -> Async R).
Arguments Return {R}.
Arguments Raise {R}.
Arguments Await {R X}.

(** A library call that runs in the handler itself and may raise. *)
Definition try_ {R X} (r : Exn + X) (k : X -> Async R) : Async R :=
  match r with inl e => Raise e | inr x => k x end.

Local Notation "x <- op ;; k" := (Await op (fun x => k))
  (at level 100, op at next level, right associativity, only parsing).
Local Notation "x <-? r ;; k" := (try_ r (fun x => k))
  (at level 100, r at next level, right associativity, only parsing).

Definition no_text (upload_filename : str) : Payload :=
  {| image_url := lit "/static/uploads/" ++ upload_filename;
     text_kn := [];
     audio_kn := None;
     text_en := [];
     audio_en := None;
     text_hi := [];
     audio_hi := None;
     error := Some (lit "No text found") |}.

Definition process (file : UploadFile) : Async Payload :=
  match content_type file with
  | None => Raise AttributeError
  | Some ct =>
  if negb (Py.startswith ct (lit "image/")) then
    Raise (HTTPException 400 (lit "File must be an image"))
  else
  let contents := read file in
  match contents with
  | [] => Raise (HTTPException 400 (lit "Empty file"))
  | _ :: _ =>
  (* Save image *)
  u <- uuid4 ;;
  let upload_filename := hex u ++ lit ".jpg" in
  let upload_path := os_path.join UPLOADS_DIR upload_filename in
  _ <- write_file upload_path contents ;;
  image <-? Image_open contents ;;
  image <-? (if bool_decide (mode image <> lit "RGB")
             then convert image (lit "RGB") else inr image) ;;
  (* OCR *)
  text_kn <- call_extract_text image upload_filename ;;
  if bool_decide (Py.strip text_kn = []) then
    Return (no_text upload_filename)
  else
  (* Audio paths *)
  u_kn <- uuid4 ;;
  let audio_kn_file := os_path.join AUDIO_DIR (hex u_kn ++ lit "_kn.mp3") in
  u_en <- uuid4 ;;
  let audio_en_file := os_path.join AUDIO_DIR (hex u_en ++ lit "_en.mp3") in
  u_hi <- uuid4 ;;
  let audio_hi_file := os_path.join AUDIO_DIR (hex u_hi ++ lit "_hi.mp3") in
  (* Translate + TTS (concurrent) *)
  trans_en_task <- create_task (async_translate text_kn (lit "en")) ;;
  trans_hi_task <- create_task (async_translate text_kn (lit "hi")) ;;
  tts_kn_task <- create_task (async_tts text_kn (lit "kn") audio_kn_file) ;;
  texts <- gather2 trans_en_task trans_hi_task ;;
  let '(text_en, text_hi) := texts in
  tts_en_task <- create_task (async_tts text_en (lit "en") audio_en_file) ;;
  tts_hi_task <- create_task (async_tts text_hi (lit "hi") audio_hi_file) ;;
  _ <- gather3 tts_kn_task tts_en_task tts_hi_task ;;
  Return
    {| image_url := lit "/static/uploads/" ++ upload_filename;
       text_kn := text_kn;
       audio_kn := Some (lit "/static/audio/" ++ os_path.basename audio_kn_file);
       text_en := text_en;
       audio_en := Some (lit "/static/audio/" ++ os_path.basename audio_en_file);
       text_hi := text_hi;
       audio_hi := Some (lit "/static/audio/" ++ os_path.basename audio_hi_file);
       error := None |}
  end
  end.

(** The gather has its result and the handler is to be resumed; the loop
    gets to it some iterations later, and running tasks can complete in
    between.  The schedule says what comes first: [0], or a schedule that
    is used up, resumes the handler; [S n] lets a running task complete
    before. *)
Fixpoint linger (l : Loop) (sched : list nat) : Loop * list nat * list Event :=
  match sched with
  | [] => (l, [], [])
  | 0 :: sched' => (l, sched', [])
  | S n :: sched' =>
      match running l !! (n mod length (running l)) with
      | None => (l, sched', [])
      | Some t =>
          let '(l', sched'', evs) := linger (complete t l) sched' in
          (l', sched'', EvDone t :: evs)
      end
  end.

Definition resume (a : Awaited) (l : Loop) (sched : list nat)
    : Awaited * Loop * list nat * list Event :=
  let '(l', sched', evs) := linger l sched in (a, l', sched', evs).

(** [await asyncio.gather(...)]: the handler is suspended and the loop
    runs.  One running task completes at a time; which one is chosen by
    the head of the schedule (the first running task once the schedule is
    used up).  The gather has its result as soon as an awaited task has
    failed or all of them have finished; the handler is resumed with it
    after that, see [linger]. *)
Fixpoint await_all (fuel : nat) (ts : list (nat * option Exn))
    (l : Loop) (sched : list nat) : Awaited * Loop * list nat * list Event :=
  match first_failed l ts with
  | Some e => resume (Failed e) l sched
  | None =>
      if forallb (fun t => finished l t.1) ts then resume Ready l sched
      else
        match fuel with
        | O => (Stalled, l, sched, [])
        | S fuel' =>
            match running l !! (hd 0 sched mod length (running l)) with
            | None => (Stalled, l, sched, [])
            | Some t =>
                let '(a, l', sched', evs) :=
                  await_all fuel' ts (complete t l) (tail sched) in
                (a, l', sched', EvDone t :: evs)
            end
        end
  end.

Definition awaitable {A} (t : Task A) : nat * option Exn :=
  (tid t, failure (coro t)).

(** One operation of the handler. *)
Definition perform {X} (op : Eff X) (w : World) (l : Loop) (sched : list nat)
    : Outcome X * World * Loop * list nat * list Event :=
  match op in Eff X return Outcome X * World * Loop * list nat * list Event with
  | uuid4 =>
      let u := entropy w (drawn w) in
      (Returned u,
       mkWorld (fs w) (entropy w) (S (drawn w)) (disk w) (writes w),
       l, sched, [EvUuid u])
  | write_file path data =>
      let w' := mkWorld (write_to (storing w) path data (fs w))
                  (entropy w) (drawn w) (disk w) (S (writes w)) in
      match write_error (storing w) with
      | None => (Returned tt, w', l, sched, [EvWrite path data])
      | Some e => (Raised e, w', l, sched, [EvWriteFailed path e])
      end
  | call_extract_text image filename =>
      let r := extract_text image filename in
      (of_result r, w, l, sched, [EvOcr image filename r])
  | create_task c =>
      let t := next_tid l in
      (Returned (mkTask t c), w, mkLoop (S t) (running l ++ [t]), sched,
       [EvCreate t (call_of c)])
  | gather2 t1 t2 =>
      let '(a, l', sched', evs) :=
        await_all (length (running l)) [awaitable t1; awaitable t2] l sched in
      (match a with
       | Ready =>
           match result_of (coro t1), result_of (coro t2) with
           | inr x1, inr x2 => Returned (x1, x2)
           | inl e, _ | _, inl e => Raised e
           end
       | Failed e => Raised e
       | Stalled => Pending
       end, w, l', sched', evs)
  | gather3 t1 t2 t3 =>
      let '(a, l', sched', evs) :=
        await_all (length (running l))
          [awaitable t1; awaitable t2; awaitable t3] l sched in
      (match a with
       | Ready =>
           match result_of (coro t1), result_of (coro t2), result_of (coro t3) with
           | inr x1, inr x2, inr x3 => Returned (x1, x2, x3)
           | inl e, _, _ | _, inl e, _ | _, _, inl e => Raised e
           end
       | Failed e => Raised e
       | Stalled => Pending
       end, w, l', sched', evs)
  end.

(** Running a program to its end: the outcome, the world and the loop it
    leaves, and the events in the order they happened. *)
Fixpoint exec {R} (p : Async R) (w : World) (l : Loop) (sched : list nat)
    : Outcome R * World * Loop * list Event :=
  match p with
  | Return r => (Returned r, w, l, [])
  | Raise e => (Raised e, w, l, [])
  | Await op k =>
      let '(o, w1, l1, sched1, evs1) := perform op w l sched in
      match o with
      | Returned x =>
          let '(o2, w2, l2, evs2) := exec (k x) w1 l1 sched1 in
          (o2, w2, l2, evs1 ++ evs2)
      | Raised e => (Raised e, w1, l1, evs1)
      | Pending => (Pending, w1, l1, evs1)
      end
  end.

(** One request: the handler starts with no task of its own. *)
Definition run_process (file : UploadFile) (w : World) (sched : list nat)
    : Outcome Payload * World * list Event :=
  let '(o, w', _, evs) := exec (process file) w (mkLoop 0 []) sched in
  (o, w', evs).

End Backend.

Arguments Return {_ R}.
Arguments Raise {_ R}.
Arguments Await {_ R X}.

(** ** The runs of the handler

    [Run file w o w' evs] lists the ways one request can go: how it ends,
    the world it leaves and the events it causes, in order.  Every
    execution of [process], under every schedule, is one of them. *)

Section Runs.

Context `{Collaborators}.

(** Lines 79-80: an image in another mode is converted. *)
Definition to_rgb (image : Image) : Exn + Image :=
  if bool_decide (mode image <> lit "RGB") then convert image (lit "RGB")
  else inr image.

(** The request passes the two checks at the top of the handler. *)
Definition accepted (file : UploadFile) : Prop :=
  exists ct, content_type file = Some ct
    /\ Py.startswith ct (lit "image/") = true
    /\ read file <> [].

(** The [i]-th UUID drawn by a request that starts in [w]. *)
Definition nth_uuid (w : World) (i : nat) : UUID := entropy w (i + drawn w).

Definition upload_filename (w : World) : str := hex (nth_uuid w 0) ++ lit ".jpg".
Definition upload_path (w : World) : str :=
  os_path.join UPLOADS_DIR (upload_filename w).
Definition audio_kn_file (w : World) : str :=
  os_path.join AUDIO_DIR (hex (nth_uuid w 1) ++ lit "_kn.mp3").
Definition audio_en_file (w : World) : str :=
  os_path.join AUDIO_DIR (hex (nth_uuid w 2) ++ lit "_en.mp3").
Definition audio_hi_file (w : World) : str :=
  os_path.join AUDIO_DIR (hex (nth_uuid w 3) ++ lit "_hi.mp3").

(** The world once the upload is stored, and once the audio names are
    chosen. *)
Definition stored (file : UploadFile) (w : World) : World :=
  mkWorld (<[upload_path w := read file]> (fs w)) (entropy w) (1 + drawn w)
    (disk w) (1 + writes w).
Definition named (file : UploadFile) (w : World) : World :=
  mkWorld (<[upload_path w := read file]> (fs w)) (entropy w) (4 + drawn w)
    (disk w) (1 + writes w).

(** The world once the attempt to store the upload has failed. *)
Definition not_stored (file : UploadFile) (w : World) : World :=
  mkWorld (write_to (storing w) (upload_path w) (read file) (fs w))
    (entropy w) (1 + drawn w) (disk w) (1 + writes w).

Definition upload_events (file : UploadFile) (w : World) : list Event :=
  [EvUuid (nth_uuid w 0); EvWrite (upload_path w) (read file)].

Definition translate_en (text : str) : Exn + str :=
  GoogleTranslator_translate (lit "kn") (lit "en") text.
Definition translate_hi (text : str) : Exn + str :=
  GoogleTranslator_translate (lit "kn") (lit "hi") text.

Definition wave1 (w : World) (text : str) : list Event :=
  [EvUuid (nth_uuid w 1); EvUuid (nth_uuid w 2); EvUuid (nth_uuid w 3);
   EvCreate 0 (CallTranslate (lit "kn") (lit "en") text);
   EvCreate 1 (CallTranslate (lit "kn") (lit "hi") text);
   EvCreate 2 (CallTTS text (lit "kn") (audio_kn_file w))].

Definition wave2 (w : World) (text_en text_hi : str) : list Event :=
  [EvCreate 3 (CallTTS text_en (lit "en") (audio_en_file w));
   EvCreate 4 (CallTTS text_hi (lit "hi") (audio_hi_file w))].

Definition full (w : World) (text text_en text_hi : str) : Payload :=
  {| image_url := lit "/static/uploads/" ++ upload_filename w;
     text_kn := text;
     audio_kn := Some (lit "/static/audio/" ++ os_path.basename (audio_kn_file w));
     text_en := text_en;
     audio_en := Some (lit "/static/audio/" ++ os_path.basename (audio_en_file w));
     text_hi := text_hi;
     audio_hi := Some (lit "/static/audio/" ++ os_path.basename (audio_hi_file w));
     error := None |}.

Inductive Run (file : UploadFile) (w : World)
  : Outcome Payload -> World -> list Event -> Prop :=
| Run_no_content_type :
    content_type file = None ->
    Run file w (Raised AttributeError) w []
| Run_not_image ct :
    content_type file = Some ct ->
    Py.startswith ct (lit "image/") = false ->
    Run file w (Raised (HTTPException 400 (lit "File must be an image"))) w []
| Run_empty ct :
    content_type file = Some ct ->
    Py.startswith ct (lit "image/") = true ->
    read file = [] ->
    Run file w (Raised (HTTPException 400 (lit "Empty file"))) w []
| Run_write_failed e :
    accepted file ->
    write_error (storing w) = Some e ->
    Run file w (Raised e) (not_stored file w)
      [EvUuid (nth_uuid w 0); EvWriteFailed (upload_path w) e]
| Run_open_failed e :
    accepted file ->
    write_error (storing w) = None ->
    Image_open (read file) = inl e ->
    Run file w (Raised e) (stored file w) (upload_events file w)
| Run_convert_failed image0 e :
    accepted file ->
    write_error (storing w) = None ->
    Image_open (read file) = inr image0 ->
    to_rgb image0 = inl e ->
    Run file w (Raised e) (stored file w) (upload_events file w)
| Run_ocr_failed image0 image e :
    accepted file ->
    write_error (storing w) = None ->
    Image_open (read file) = inr image0 ->
    to_rgb image0 = inr image ->
    extract_text image (upload_filename w) = inl e ->
    Run file w (Raised e) (stored file w)
      (upload_events file w ++ [EvOcr image (upload_filename w) (inl e)])
| Run_no_text image0 image text :
    accepted file ->
    write_error (storing w) = None ->
    Image_open (read file) = inr image0 ->
    to_rgb image0 = inr image ->
    extract_text image (upload_filename w) = inr text ->
    Py.strip text = [] ->
    Run file w (Returned (no_text (upload_filename w))) (stored file w)
      (upload_events file w ++ [EvOcr image (upload_filename w) (inr text)])
| Run_translate_failed image0 image text e ds :
    accepted file ->
    write_error (storing w) = None ->
    Image_open (read file) = inr image0 ->
    to_rgb image0 = inr image ->
    extract_text image (upload_filename w) = inr text ->
    Py.strip text <> [] ->
    translate_en text = inl e \/ translate_hi text = inl e ->
    Run file w (Raised e) (named file w)
      (upload_events file w ++ [EvOcr image (upload_filename w) (inr text)]
       ++ wave1 w text ++ (EvDone <$> ds))
| Run_tts_failed image0 image text text_en text_hi e ds1 ds2 :
    accepted file ->
    write_error (storing w) = None ->
    Image_open (read file) = inr image0 ->
    to_rgb image0 = inr image ->
    extract_text image (upload_filename w) = inr text ->
    Py.strip text <> [] ->
    translate_en text = inr text_en ->
    translate_hi text = inr text_hi ->
    0 ∈ ds1 -> 1 ∈ ds1 ->
    text_to_speech text (lit "kn") (audio_kn_file w) = inl e
    \/ text_to_speech text_en (lit "en") (audio_en_file w) = inl e
    \/ text_to_speech text_hi (lit "hi") (audio_hi_file w) = inl e ->
    Run file w (Raised e) (named file w)
      (upload_events file w ++ [EvOcr image (upload_filename w) (inr text)]
       ++ wave1 w text ++ (EvDone <$> ds1)
       ++ wave2 w text_en text_hi ++ (EvDone <$> ds2))
| Run_full image0 image text text_en text_hi ds1 ds2 :
    accepted file ->
    write_error (storing w) = None ->
    Image_open (read file) = inr image0 ->
    to_rgb image0 = inr image ->
    extract_text image (upload_filename w) = inr text ->
    Py.strip text <> [] ->
    translate_en text = inr text_en ->
    translate_hi text = inr text_hi ->
    0 ∈ ds1 -> 1 ∈ ds1 ->
    text_to_speech text (lit "kn") (audio_kn_file w) = inr tt ->
    text_to_speech text_en (lit "en") (audio_en_file w) = inr tt ->
    text_to_speech text_hi (lit "hi") (audio_hi_file w) = inr tt ->
    (forall t, t ∈ [2; 3; 4] -> t ∈ ds1 ++ ds2) ->
    Run file w (Returned (full w text text_en text_hi)) (named file w)
      (upload_events file w ++ [EvOcr image (upload_filename w) (inr text)]
       ++ wave1 w text ++ (EvDone <$> ds1)
       ++ wave2 w text_en text_hi ++ (EvDone <$> ds2)).

End Runs.

(** ** Reading a trace *)

Section Observations.

Context `{Collaborators}.

Fixpoint count {A} (p : A -> bool) (l : list A) : nat :=
  match l with
  | [] => 0
  | x :: l' => (if p x then 1 else 0) + count p l'
  end.

(** The tasks created, in order, with the external call each one makes. *)
Definition created (evs : list Event) : list (nat * Call) :=
  omap (fun e => match e with EvCreate t c => Some (t, c) | _ => None end) evs.

(** The UUIDs drawn, the paths written by the handler and the paths
    handed to the speech adapter. *)
Definition uuids_of (evs : list Event) : list UUID :=
  omap (fun e => match e with EvUuid u => Some u | _ => None end) evs.
Definition written_paths (evs : list Event) : list str :=
  omap (fun e => match e with EvWrite p _ => Some p | _ => None end) evs.
Definition tts_files (evs : list Event) : list str :=
  omap (fun e => match e with
                 | EvCreate _ (CallTTS _ _ filename) => Some filename
                 | _ => None
                 end) evs.

Definition is_done (t : nat) (e : Event) : bool :=
  match e with EvDone t' => t =? t' | _ => false end.
Definition is_create (t : nat) (e : Event) : bool :=
  match e with EvCreate t' _ => t =? t' | _ => false end.
Definition is_ocr (e : Event) : bool :=
  match e with EvOcr _ _ _ => true | _ => false end.

(** The number of calls of each kind that were attempted. *)
Definition is_translate_to (target : str) (c : Call) : bool :=
  match c with
  | CallTranslate _ target' _ => bool_decide (target' = target)
  | _ => false
  end.
Definition is_tts_in (lang : str) (c : Call) : bool :=
  match c with
  | CallTTS _ lang' _ => bool_decide (lang' = lang)
  | _ => false
  end.
Definition ocr_calls (evs : list Event) : nat := count is_ocr evs.
Definition translate_calls (target : str) (evs : list Event) : nat :=
  count (fun tc => is_translate_to target tc.2) (created evs).
Definition tts_calls (lang : str) (evs : list Event) : nat :=
  count (fun tc => is_tts_in lang tc.2) (created evs).

(** Some event satisfying [P] comes strictly before some event
    satisfying [Q]. *)
Fixpoint precedes (P Q : Event -> bool) (evs : list Event) : bool :=
  match evs with
  | [] => false
  | e :: evs' => P e && existsb Q evs' || precedes P Q evs'
  end.

(** Task [t1] has completed when task [t2] is created. *)
Definition waits_for (evs : list Event) (t1 t2 : nat) : bool :=
  precedes (is_done t1) (is_create t2) evs.

(** The two waves: the second one is the speech synthesis of the two
    translations, the first one everything else. *)
Definition is_translation (c : Call) : bool :=
  match c with CallTranslate _ _ _ => true | _ => false end.
Definition is_wave2 (c : Call) : bool :=
  is_tts_in (lit "en") c || is_tts_in (lit "hi") c.
Definition is_wave1 (c : Call) : bool := negb (is_wave2 c).

(** Every task of the second wave is created after every task whose call
    satisfies [needed] has completed. *)
Definition barrier (needed : Call -> bool) (evs : list Event) : bool :=
  forallb (fun tc2 =>
    negb (is_wave2 tc2.2)
    || forallb (fun tc1 => negb (needed tc1.2) || waits_for evs tc1.1 tc2.1)
         (created evs))
    (created evs).

(** Every task that was created has completed. *)
Definition all_done (evs : list Event) : bool :=
  forallb (fun tc => existsb (is_done tc.1) evs) (created evs).

(** The text the OCR adapter returned is not blank. *)
Definition ocr_text_nonblank (evs : list Event) : bool :=
  existsb (fun e => match e with
                    | EvOcr _ _ (inr text) => negb (bool_decide (Py.strip text = []))
                    | _ => false
                    end) evs.

Definition five_tasks (w : World) (text text_en text_hi : str) : list (nat * Call) :=
  [(0, CallTranslate (lit "kn") (lit "en") text);
   (1, CallTranslate (lit "kn") (lit "hi") text);
   (2, CallTTS text (lit "kn") (audio_kn_file w));
   (3, CallTTS text_en (lit "en") (audio_en_file w));
   (4, CallTTS text_hi (lit "hi") (audio_hi_file w))].

End Observations.

(** ** Generated names *)

(** A generated name: the hexadecimal form of a UUID and a suffix. *)
Definition generated_name (p : UUID * str) : str := hex p.1 ++ p.2.

Definition in_dir (dir : str) (p : UUID * str) : str :=
  os_path.join dir (generated_name p).

(** ** Two properties the handler does not have

    [barrier is_wave1] says that the second wave starts only after every
    task of the first wave has completed; [each_call_exactly_once] says
    that every execution calls the OCR adapter exactly once and, when the
    OCR text is not blank, each translation and each synthesis exactly
    once. *)

Section Stated.

Context `{Collaborators}.

Definition each_call_exactly_once (evs : list Event) : Prop :=
  ocr_calls evs = 1
  /\ (ocr_text_nonblank evs = true ->
      translate_calls (lit "en") evs = 1 /\ translate_calls (lit "hi") evs = 1
      /\ tts_calls (lit "kn") evs = 1 /\ tts_calls (lit "en") evs = 1
      /\ tts_calls (lit "hi") evs = 1).

End Stated.

(** ** Serving files and judging calls *)

Section Serving.

Context `{Collaborators}.

(** [app.mount("/static", StaticFiles(directory=STATIC_DIR))]: the file a
    URL below the mount is looked up at, which is the directory joined
    with the rest of the URL path (for a path without empty, [.] or [..]
    segments, as all paths the handler returns are). *)
Definition static_file (url : str) : option str :=
  if Py.startswith url (lit "/static/")
  then Some (os_path.join STATIC_DIR (Py.slice_from 8 url))
  else None.

(** The exception the external call of a task ends in, if any. *)
Definition call_failure (c : Call) : option Exn :=
  match c with
  | CallTranslate source target text =>
      match GoogleTranslator_translate source target text with
      | inl e => Some e
      | inr _ => None
      end
  | CallTTS text lang filename =>
      match text_to_speech text lang filename with
      | inl e => Some e
      | inr _ => None
      end
  end.

End Serving.

(** ** A concrete set of collaborators

    Stand-ins for the external libraries, used to run the handler on
    concrete requests.  An upload whose first byte is [0xff] decodes to an
    RGB image, one whose first byte is [0x89] to an RGBA image, anything
    else is not an image file; the text on an image is spelled by the bytes
    after the first; a text that starts with [#] cannot be translated. *)

Module Demo.

Record image := mkImage { im_mode : str; im_data : bytes }.

Definition open (contents : bytes) : Exn + image :=
  match contents with
  | Byte.xff :: data => inr (mkImage (lit "RGB") data)
  | Byte.x89 :: data => inr (mkImage (lit "RGBA") data)
  | _ => inl (AdapterError (lit "cannot identify image file"))
  end.

Definition ocr (i : image) (filename : str) : Exn + str :=
  inr ((fun b => Byte.to_N b) <$> im_data i).

Definition translate (source target text : str) : Exn + str :=
  if Py.startswith text (lit "#") then inl (AdapterError (lit "translation failed"))
  else inr (target ++ lit ":" ++ text).

#[export] Instance collaborators : Collaborators := {|
  Image := image;
  Image_open := open;
  mode := im_mode;
  convert := fun i m => inr (mkImage m (im_data i));
  extract_text := ocr;
  GoogleTranslator_translate := translate;
  text_to_speech := fun _ _ _ => inr tt;
  BASE_DIR := lit "/app"
|}.

(** The UUIDs the server draws, in order. *)
Definition uuids : list UUID :=
  [ mkUUID 0x3f2b8c1e9d4a4f6b8e7a1c2d3e4f5a6b eq_refl;
    mkUUID 0x0a1b2c3d4e5f4a6b9c8d7e6f5a4b3c2d eq_refl;
    mkUUID 0xd94f0c52b7e14e0d8a3b6c1f2e5d7a90 eq_refl;
    mkUUID 0x5e6f7a8b9c0d4e1f8a2b3c4d5e6f7a8b eq_refl;
    mkUUID 0x11223344556647788899aabbccddeeff eq_refl;
    mkUUID 0xfedcba98765443218fedcba987654321 eq_refl;
    mkUUID 0x7c9e6679742540de944be07fc1f90ae7 eq_refl;
    mkUUID 0x16fd2706876249c0a1f2b3c4d5e6f708 eq_refl ].

(** A fresh server: no files yet. *)
Definition world : World :=
  mkWorld ∅ (fun n => nth n uuids (mkUUID 0 eq_refl)) 0 (fun _ => DiskOk) 0.

(** A fresh server whose disk is full: a file can be created, no byte
    can be written to it. *)
Definition world_full : World :=
  mkWorld ∅ (fun n => nth n uuids (mkUUID 0 eq_refl)) 0
    (fun _ => WriteRaises 0 (OSError (lit "No space left on device"))) 0.

(** An upload with an RGBA image of the text [ab]. *)
Definition png_ab : UploadFile :=
  {| content_type := Some (lit "image/png");
     read := [Byte.x89; Byte.x61; Byte.x62] |}.

(** An upload with an RGB image of a single space. *)
Definition jpg_blank : UploadFile :=
  {| content_type := Some (lit "image/jpeg"); read := [Byte.xff; Byte.x20] |}.

(** An upload with an RGB image of the text [#a], which cannot be
    translated. *)
Definition jpg_hash : UploadFile :=
  {| content_type := Some (lit "image/jpeg");
     read := [Byte.xff; Byte.x23; Byte.x61] |}.

(** A text file and an empty image upload. *)
Definition txt : UploadFile :=
  {| content_type := Some (lit "text/plain"); read := [Byte.x61] |}.
Definition empty_png : UploadFile :=
  {| content_type := Some (lit "image/png"); read := [] |}.

(** An upload whose part declares no content type. *)
Definition untyped : UploadFile :=
  {| content_type := None; read := [Byte.x89; Byte.x61] |}.

(** An upload that claims to be an image and is none. *)
Definition garbage : UploadFile :=
  {| content_type := Some (lit "image/png"); read := [Byte.x00] |}.

(** The three components of a run on the fresh server. *)
Definition outcome_of (file : UploadFile) (sched : list nat) : Outcome Payload :=
  (run_process file world sched).1.1.
Definition world_after (file : UploadFile) (sched : list nat) : World :=
  (run_process file world sched).1.2.
Definition trace_of (file : UploadFile) (sched : list nat) : list Event :=
  (run_process file world sched).2.

(** A second request, served after [png_ab]. *)
Definition trace_of_second (file : UploadFile) (sched : list nat) : list Event :=
  (run_process file (world_after png_ab []) sched).2.

End Demo.

(** ** Tactics *)

Ltac idle :=
  solve [ intros ?; split;
          [ intros ?; split; [assumption | apply not_elem_of_nil]
          | intros [? _]; assumption ]
        | intros ? []%elem_of_nil ].

(** ** Facts about the string functions *)

Section StringFacts.

Lemma startswith_prefix (s p : str) :
  Py.startswith s p = true <-> exists t, s = p ++ t.
Proof.
  revert s; induction p as [|c p IH]; intros s; simpl.
  - split; [intros _; by exists s | done].
  - destruct s as [|d s].
    + split; [done | intros [t Ht]; discriminate].
    + rewrite andb_true_iff, N.eqb_eq, IH. split.
      * intros [-> [t ->]]. by exists t.
      * intros [t Ht]. injection Ht as -> ->. eauto.
Qed.

Lemma endswith_suffix (s p : str) :
  Py.endswith s p = true <-> exists t, s = t ++ p.
Proof.
  unfold Py.endswith. rewrite startswith_prefix. split.
  - intros [t Ht]. exists (reverse t).
    apply (inj reverse). by rewrite Ht, !reverse_app, reverse_involutive.
  - intros [t ->]. exists (reverse t). by rewrite reverse_app.
Qed.

Lemma endswith_app (a p : str) : Py.endswith (a ++ p) p = true.
Proof. apply endswith_suffix. by exists a. Qed.

Lemma lstrip_nil_iff (s : str) :
  Py.lstrip s = [] <-> Forall (fun c => Py.isspace c = true) s.
Proof.
  induction s as [|c s IH]; simpl.
  - split; [constructor | done].
  - destruct (Py.isspace c) eqn:E.
    + rewrite IH. split; [by constructor | by inversion 1].
    + split; [done | inversion 1; congruence].
Qed.

Lemma lstrip_head (s : str) c r : Py.lstrip s = c :: r -> Py.isspace c = false.
Proof.
  induction s as [|d s IH]; simpl; [done|].
  destruct (Py.isspace d) eqn:E; [done|]. by intros [= <- _].
Qed.

(** A text is blank for [not text.strip()] exactly when each of its code
    points is white space. *)
Lemma strip_nil_iff (s : str) :
  Py.strip s = [] <-> Forall (fun c => Py.isspace c = true) s.
Proof.
  unfold Py.strip, Py.rstrip. split.
  - intros H. apply lstrip_nil_iff.
    apply (f_equal reverse) in H. rewrite reverse_involutive in H.
    change (reverse []) with (@nil N) in H.
    apply lstrip_nil_iff, Forall_reverse in H.
    rewrite reverse_involutive in H.
    destruct (Py.lstrip s) as [|c r] eqn:E; [done|].
    apply lstrip_head in E. inversion H; congruence.
  - intros H. apply lstrip_nil_iff in H. by rewrite H.
Qed.

(** *** Paths *)

Lemma join_relative (a b : str) :
  Py.startswith b [os_path.sep] = false ->
  os_path.join a b = dir_prefix a ++ b.
Proof.
  intros H. unfold os_path.join, dir_prefix. rewrite H.
  destruct (bool_decide (a = []) || Py.endswith a [os_path.sep]); [done|].
  by rewrite <- app_assoc.
Qed.

Lemma dir_prefix_closed (a : str) :
  dir_prefix a = [] \/ exists q, dir_prefix a = q ++ [os_path.sep].
Proof.
  unfold dir_prefix.
  destruct (bool_decide (a = [])) eqn:E; simpl.
  - left. by apply bool_decide_eq_true in E.
  - destruct (Py.endswith a [os_path.sep]) eqn:F; [|by eauto].
    right. by apply endswith_suffix in F.
Qed.

Lemma rfind_from_app i c (p q : str) last :
  Py.rfind_from i c (p ++ q) last
  = Py.rfind_from (i + Z.of_nat (length p)) c q (Py.rfind_from i c p last).
Proof.
  revert i last; induction p as [|x p IH]; intros i last; simpl.
  - f_equal. lia.
  - rewrite IH. f_equal. lia.
Qed.

Lemma rfind_from_absent i c (q : str) last :
  c ∉ q -> Py.rfind_from i c q last = last.
Proof.
  revert i last; induction q as [|x q IH]; intros i last Hc; simpl; [done|].
  apply not_elem_of_cons in Hc as [Hx Hq].
  rewrite IH by done. destruct (N.eqb_spec x c); congruence.
Qed.

Lemma basename_app (pre name : str) :
  (pre = [] \/ exists q, pre = q ++ [os_path.sep]) ->
  os_path.sep ∉ name ->
  os_path.basename (pre ++ name) = name.
Proof.
  intros Hpre Hname. unfold os_path.basename, Py.rfind, Py.slice_from.
  rewrite rfind_from_app, rfind_from_absent by done.
  destruct Hpre as [-> | [q ->]]; simpl; [done|].
  rewrite rfind_from_app. cbn [Py.rfind_from]. rewrite N.eqb_refl.
  replace (Z.to_nat (0 + Z.of_nat (length q) + 1)) with (length (q ++ [os_path.sep]))
    by (rewrite length_app; simpl; lia).
  by rewrite drop_app_length.
Qed.

(** *** Hexadecimal rendering *)

Lemma hex_digit_char d : (d < 16)%N -> is_hex_char (hex_digit d).
Proof.
  intros Hd. unfold hex_digit, is_hex_char.
  destruct (N.ltb_spec d 10); lia.
Qed.

Lemma hex_digit_inj d e :
  (d < 16)%N -> (e < 16)%N -> hex_digit d = hex_digit e -> d = e.
Proof.
  unfold hex_digit. intros Hd He.
  destruct (N.ltb_spec d 10), (N.ltb_spec e 10); lia.
Qed.

Lemma hexdigits_chars n v : Forall is_hex_char (hexdigits n v).
Proof.
  revert v; induction n as [|n IH]; intros v; simpl; [constructor|].
  apply Forall_app; split; [apply IH|].
  constructor; [|constructor]. apply hex_digit_char.
  by apply N.mod_lt.
Qed.

Lemma hexdigits_length n v : length (hexdigits n v) = n.
Proof.
  revert v; induction n as [|n IH]; intros v; simpl; [done|].
  rewrite length_app, IH. simpl. lia.
Qed.

(** On values below [16 ^ n] the [n]-digit rendering is injective. *)
Lemma hexdigits_inj n v v' :
  (v < 16 ^ N.of_nat n)%N -> (v' < 16 ^ N.of_nat n)%N ->
  hexdigits n v = hexdigits n v' -> v = v'.
Proof.
  revert v v'; induction n as [|n IH]; intros v v' Hv Hv' H.
  - simpl in *. lia.
  - simpl in H. apply app_inj_2 in H as [H1 H2]; [|done].
    injection H2 as H2.
    apply hex_digit_inj in H2; [| by apply N.mod_lt ..].
    rewrite Nat2N.inj_succ, N.pow_succ_r' in Hv, Hv'.
    apply IH in H1; [| apply N.Div0.div_lt_upper_bound; lia ..].
    rewrite (N.div_mod v 16), (N.div_mod v' 16) by done. congruence.
Qed.

Lemma hex_inj u u' : hex u = hex u' -> int u = int u'.
Proof.
  destruct u as [v Hv], u' as [v' Hv']; unfold hex; cbn [int].
  apply N.ltb_lt in Hv, Hv'.
  apply hexdigits_inj; by change (16 ^ N.of_nat 32)%N with (2 ^ 128)%N.
Qed.

Lemma hex_chars u : Forall is_hex_char (hex u).
Proof. apply hexdigits_chars. Qed.

End StringFacts.

(** ** The generated file names *)

Section NameFacts.

Lemma hex_head u : exists c r, hex u = c :: r /\ is_hex_char c.
Proof.
  pose proof (hex_chars u) as Hc.
  pose proof (hexdigits_length 32 (int u)) as Hl. fold (hex u) in Hl.
  destruct (hex u) as [|c r]; [done|].
  exists c, r. split; [done|]. by inversion Hc.
Qed.

Lemma hex_no_sep u : os_path.sep ∉ hex u.
Proof.
  intros Hin. pose proof (hex_chars u) as Hc.
  rewrite Forall_forall in Hc. apply Hc in Hin.
  unfold is_hex_char, os_path.sep in Hin. lia.
Qed.

(** A generated name is relative: [os.path.join] keeps the directory. *)
Lemma name_relative u sfx : Py.startswith (hex u ++ sfx) [os_path.sep] = false.
Proof.
  destruct (hex_head u) as (c & r & -> & Hc).
  cbn [app Py.startswith]. unfold is_hex_char, os_path.sep in *.
  destruct (N.eqb_spec 47 c); [lia | done].
Qed.

Lemma join_name dir u sfx :
  os_path.join dir (hex u ++ sfx) = dir_prefix dir ++ hex u ++ sfx.
Proof. apply join_relative, name_relative. Qed.

Lemma basename_join dir u sfx :
  os_path.sep ∉ sfx ->
  os_path.basename (os_path.join dir (hex u ++ sfx)) = hex u ++ sfx.
Proof.
  intros Hs. rewrite join_name. apply basename_app; [apply dir_prefix_closed|].
  rewrite elem_of_app. intros [?%hex_no_sep | ?]; done.
Qed.

Lemma join_endswith dir u sfx :
  Py.endswith (os_path.join dir (hex u ++ sfx)) sfx = true.
Proof.
  rewrite join_name, !app_assoc. apply endswith_app.
Qed.

(** Two generated names in one directory are equal only if they come from
    the same UUID and carry the same suffix. *)
Lemma join_name_inj dir u u' sfx sfx' :
  length sfx = length sfx' ->
  os_path.join dir (hex u ++ sfx) = os_path.join dir (hex u' ++ sfx') ->
  int u = int u' /\ sfx = sfx'.
Proof.
  intros Hl. rewrite !join_name. intros E%app_inv_head.
  apply app_inj_2 in E as [E1 E2]; [|done].
  split; [by apply hex_inj | done].
Qed.

Lemma join_endswith_other dir u sfx sfx' :
  length sfx = length sfx' -> sfx <> sfx' ->
  Py.endswith (os_path.join dir (hex u ++ sfx)) sfx' = false.
Proof.
  intros Hl Hne. apply not_true_iff_false. intros [t E]%endswith_suffix.
  rewrite join_name, !app_assoc in E.
  apply app_inj_2 in E as [_ E]; done.
Qed.

End NameFacts.

(** ** The event loop: what a gather guarantees *)

Section LoopFacts.

Context `{Collaborators}.

Lemma finished_spec l t :
  finished l t = true <-> t < next_tid l /\ t ∉ running l.
Proof.
  unfold finished.
  rewrite andb_true_iff, Nat.ltb_lt, negb_true_iff, bool_decide_eq_false.
  done.
Qed.

Lemma first_failed_Some l ts e :
  first_failed l ts = Some e ->
  exists t, (t, Some e) ∈ ts /\ finished l t = true.
Proof.
  induction ts as [|[t [e'|]] ts IH]; simpl; [done| |].
  - destruct (finished l t) eqn:F.
    + intros [= ->]. exists t. split; [left | done].
    + intros [t' [Hin Hf]]%IH. exists t'. split; [by right | done].
  - intros [t' [Hin Hf]]%IH. exists t'. split; [by right | done].
Qed.

Lemma first_failed_None l ts t e :
  first_failed l ts = None -> (t, Some e) ∈ ts -> finished l t = false.
Proof.
  induction ts as [|[t' [e'|]] ts IH]; simpl; intros Hn Hin.
  - by apply elem_of_nil in Hin.
  - destruct (finished l t') eqn:F; [done|].
    apply elem_of_cons in Hin as [[= -> ->] | Hin]; [done | by apply IH].
  - apply elem_of_cons in Hin as [[=] | Hin]. by apply IH.
Qed.

Lemma all_finished_spec l (ts : list (nat * option Exn)) :
  forallb (fun t => finished l t.1) ts = true <->
  forall t oe, (t, oe) ∈ ts -> finished l t = true.
Proof.
  rewrite forallb_forall. split.
  - intros Hall t oe Hin. by apply (Hall (t, oe)), list_elem_of_In.
  - intros Hall [t oe] Hin. by apply (Hall t oe), list_elem_of_In.
Qed.

Lemma unfinished_awaited l (ts : list (nat * option Exn)) :
  forallb (fun t => finished l t.1) ts = false ->
  exists t oe, (t, oe) ∈ ts /\ finished l t = false.
Proof.
  induction ts as [|[t oe] ts IH]; simpl; [done|].
  destruct (finished l t) eqn:F; simpl.
  - intros (t' & oe' & Hin & Hf)%IH. exists t', oe'. split; [by right | done].
  - intros _. exists t, oe. split; [left | done].
Qed.

(** With nothing running, an awaited task that has not finished was
    never created. *)
Lemma unfinished_idle l (ts : list (nat * option Exn)) :
  forallb (fun t => finished l t.1) ts = false ->
  running l = [] ->
  exists t oe, (t, oe) ∈ ts /\ next_tid l <= t.
Proof.
  intros (t & oe & Hin & Hf)%unfinished_awaited Hr.
  exists t, oe. split; [done|].
  unfold finished in Hf. rewrite Hr in Hf.
  rewrite bool_decide_eq_false_2 in Hf by apply not_elem_of_nil.
  rewrite andb_true_r in Hf. by apply Nat.ltb_ge in Hf.
Qed.

(** Completions leave finished tasks finished. *)
Lemma finished_kept l l' (ds : list nat) t :
  next_tid l' = next_tid l ->
  (forall t, t ∈ running l' <-> t ∈ running l /\ t ∉ ds) ->
  finished l t = true -> finished l' t = true.
Proof.
  intros Hn Hr [Hlt Hnr]%finished_spec. apply finished_spec.
  rewrite Hn. split; [done|]. rewrite Hr. tauto.
Qed.

(** Before the handler is resumed only tasks that were running
    complete. *)
Lemma linger_inv l sched l' sched' evs :
  linger l sched = (l', sched', evs) ->
  exists ds,
    evs = EvDone <$> ds
    /\ next_tid l' = next_tid l
    /\ (forall t, t ∈ running l' <-> t ∈ running l /\ t ∉ ds)
    /\ (forall t, t ∈ ds -> t ∈ running l).
Proof.
  revert l l' sched' evs.
  induction sched as [|[|n] sched IH]; intros l l' sched' evs; cbn [linger].
  - intros [= <- <- <-]. exists []. split_and!; [done | done | idle | idle].
  - intros [= <- <- <-]. exists []. split_and!; [done | done | idle | idle].
  - destruct (running l !! (n `mod` length (running l))) as [t|] eqn:L.
    + destruct (linger (complete t l) sched) as [[l1 sched1] evs1] eqn:R.
      intros [= <- <- <-].
      apply IH in R as (ds & -> & Hn & Hr & Hd).
      apply list_elem_of_lookup_2 in L.
      exists (t :: ds). split_and!.
      * done.
      * done.
      * intros t'. rewrite Hr. unfold complete; simpl.
        rewrite list_elem_of_filter, not_elem_of_cons. tauto.
      * intros t' [->|Hin]%elem_of_cons; [done|].
        apply Hd in Hin. unfold complete in Hin; simpl in Hin.
        by apply list_elem_of_filter in Hin as [_ ?].
    + intros [= <- <- <-]. exists []. split_and!; [done | done | idle | idle].
Qed.

Lemma resume_inv a0 l sched a l' sched' evs :
  resume a0 l sched = (a, l', sched', evs) ->
  a = a0
  /\ exists ds,
       evs = EvDone <$> ds
       /\ next_tid l' = next_tid l
       /\ (forall t, t ∈ running l' <-> t ∈ running l /\ t ∉ ds)
       /\ (forall t, t ∈ ds -> t ∈ running l).
Proof.
  unfold resume. destruct (linger l sched) as [[l1 sched1] evs1] eqn:R.
  intros [= <- <- <- <-]. split; [done|]. by eapply linger_inv.
Qed.

(** What [await_all] does to the loop and what its answer means: the
    events are completions of tasks that were running, exactly those
    tasks have left [running], a [Ready] answer comes with every awaited
    task finished and none failed, a [Failed] one with an awaited task
    that finished in that exception. *)
Lemma await_all_inv fuel ts l sched a l' sched' evs :
  await_all fuel ts l sched = (a, l', sched', evs) ->
  exists ds,
    evs = EvDone <$> ds
    /\ next_tid l' = next_tid l
    /\ (forall t, t ∈ running l' <-> t ∈ running l /\ t ∉ ds)
    /\ (forall t, t ∈ ds -> t ∈ running l)
    /\ match a with
       | Ready => forall t oe, (t, oe) ∈ ts -> finished l' t = true /\ oe = None
       | Failed e => exists t, (t, Some e) ∈ ts /\ finished l' t = true
       | Stalled =>
           fuel < length (running l)
           \/ exists t oe, (t, oe) ∈ ts /\ next_tid l <= t
       end.
Proof.
  revert l sched a l' sched' evs.
  induction fuel as [|fuel IH]; intros l sched a l' sched' evs; simpl;
    (destruct (first_failed l ts) as [e|] eqn:FF;
      [ intros (-> & ds & -> & Hn & Hr & Hd)%resume_inv;
        exists ds; split_and!; [done | done | done | done |];
        apply first_failed_Some in FF as (t & Hin & Hf);
        exists t; split; [done | by eapply finished_kept] |]);
    (destruct (forallb _ ts) eqn:AF;
      [ intros (-> & ds & -> & Hn & Hr & Hd)%resume_inv;
        exists ds; split_and!; [done | done | done | done |];
        intros t oe Hin; rewrite all_finished_spec in AF;
        split; [eapply finished_kept; [done | done | by eapply AF]|];
        destruct oe as [e|]; [|done];
        apply (first_failed_None _ _ _ _ FF) in Hin as F;
        rewrite (AF _ _ Hin) in F; done |]).
  - intros [= <- <- <- <-]. exists []. split_and!; [done | done | idle | idle |].
    destruct (running l) as [|t r] eqn:E; [right | left; simpl; lia].
    apply unfinished_idle; [done | by rewrite E].
  - destruct (running l !! (hd 0 sched `mod` length (running l))) as [t|] eqn:L.
    + destruct (await_all fuel ts (complete t l) (tail sched))
        as [[[a1 l1] sched1] evs1] eqn:R.
      intros [= <- <- <- <-].
      apply IH in R as (ds & -> & Hn & Hr & Hd & Ha).
      apply list_elem_of_lookup_2 in L.
      exists (t :: ds). split_and!.
      * done.
      * done.
      * intros t'. rewrite Hr. unfold complete; simpl.
        rewrite list_elem_of_filter, not_elem_of_cons. tauto.
      * intros t' [->|Hin]%elem_of_cons; [done|].
        apply Hd in Hin. unfold complete in Hin; simpl in Hin.
        by apply list_elem_of_filter in Hin as [_ ?].
      * destruct a1; [done | done |].
        destruct Ha as [Hlt | Hex]; [left | by right].
        unfold complete in Hlt; simpl in Hlt.
        pose proof (length_filter_lt (fun t' => t' <> t) (running l) t L
                      (fun Hne => Hne eq_refl)).
        lia.
    + intros [= <- <- <- <-].
      exists []. split_and!; [done | done | idle | idle |].
      destruct (running l) as [|t r] eqn:E.
      * right. apply unfinished_idle; [done | by rewrite E].
      * apply lookup_ge_None in L.
        pose proof (Nat.mod_upper_bound (hd 0 sched) (length (t :: r))).
        simpl in *. lia.
Qed.

End LoopFacts.

Section Soundness.

Context `{Collaborators}.

Lemma write_error_None d : write_error d = None <-> d = DiskOk.
Proof. by destruct d. Qed.

Lemma write_to_ok (d : Disk) (path : str) (data : bytes)
    (files : gmap str bytes) :
  write_error d = None -> write_to d path data files = <[path := data]> files.
Proof. by intros ->%write_error_None. Qed.

Lemma failure_Some {A} (c : Coroutine A) e :
  failure c = Some e -> result_of c = inl e.
Proof. unfold failure. destruct (result_of c); congruence. Qed.

Lemma failure_None {A} (c : Coroutine A) :
  failure c = None -> exists x, result_of c = inr x.
Proof. unfold failure. destruct (result_of c); [done | eauto]. Qed.

(** A task that was running before a gather and is finished after it
    completed during it. *)
Lemma finished_during l l' (ds : list nat) t :
  (forall t, t ∈ running l' <-> t ∈ running l /\ t ∉ ds) ->
  finished l' t = true -> t ∈ running l -> t ∈ ds.
Proof.
  intros Hr [_ Hf]%finished_spec Hin.
  destruct (decide (t ∈ ds)) as [|Hn]; [done|].
  destruct Hf. apply Hr. done.
Qed.

Lemma run_process_cases file w sched :
  match run_process file w sched with
  | (o, w', evs) => Run file w o w' evs
  end.
Proof.
  unfold run_process, process.
  destruct (content_type file) as [ct|] eqn:Hct.
  2:{ cbn [exec]. by constructor. }
  destruct (Py.startswith ct (lit "image/")) eqn:Himg.
  2:{ cbn [negb exec]. by econstructor. }
  destruct (read file) as [|b bs] eqn:Hread.
  { cbn [negb exec]. by econstructor. }
  assert (Hacc : accepted file).
  { exists ct. by rewrite Hread. }
  rewrite <- Hread. clear b bs Hread.
  cbn [negb exec perform fs entropy drawn disk writes storing].
  change (disk w (writes w)) with (storing w).
  destruct (write_error (storing w)) as [e|] eqn:Hdisk.
  { cbn [app]. by apply Run_write_failed. }
  rewrite (write_to_ok _ _ _ _ Hdisk).
  cbn [exec perform fs entropy drawn disk writes].
  destruct (Image_open (read file)) as [e|image0] eqn:Hopen.
  { cbn [try_ exec app]. by apply Run_open_failed. }
  cbn [try_].
  change (if bool_decide (mode image0 <> lit "RGB") then convert image0 (lit "RGB") else inr image0)
    with (to_rgb image0).
  destruct (to_rgb image0) as [e|image] eqn:Hrgb.
  { cbn [try_ exec app]. by eapply Run_convert_failed. }
  cbn [try_ exec perform].
  change (hex (entropy w (drawn w)) ++ lit ".jpg") with (upload_filename w).
  destruct (extract_text image (upload_filename w)) as [e|text] eqn:Hocr.
  { cbn [of_result app]. by eapply Run_ocr_failed. }
  cbn [of_result].
  destruct (bool_decide (Py.strip text = [])) eqn:Hblank.
  { apply bool_decide_eq_true in Hblank.
    cbn [exec app]. by eapply Run_no_text. }
  apply bool_decide_eq_false in Hblank.
  cbn [exec perform fs entropy drawn disk writes next_tid running app length].
  destruct (await_all 3 _ _ sched) as [[[a1 l1] sched1] evs1] eqn:G1.
  apply await_all_inv in G1 as (ds1 & -> & Hn1 & Hr1 & Hd1 & Ha1).
  cbn [next_tid running] in Hn1, Hr1, Hd1, Ha1.
  cbn [coro result_of call_of].
  change (GoogleTranslator_translate (lit "kn") (lit "en") text) with (translate_en text).
  change (GoogleTranslator_translate (lit "kn") (lit "hi") text) with (translate_hi text).
  destruct a1 as [|e|].
  3:{ exfalso. destruct Ha1 as [Hlt | (t & oe & Hin & Hle)]; [simpl in Hlt; lia|].
      unfold awaitable in Hin; cbn [tid] in Hin.
      apply elem_of_cons in Hin as [[= -> _] | Hin]; [lia|].
      apply list_elem_of_singleton in Hin as [= -> _]. lia. }
  2:{ destruct Ha1 as (t & Hin & _).
      unfold awaitable in Hin; cbn [tid coro] in Hin.
      assert (translate_en text = inl e \/ translate_hi text = inl e) as Hfail.
      { apply elem_of_cons in Hin as [[= _ Hf] | Hin].
        - left. symmetry in Hf. by apply failure_Some in Hf.
        - apply list_elem_of_singleton in Hin as [= _ Hf].
          right. symmetry in Hf. by apply failure_Some in Hf. }
      cbn [app]. by eapply Run_translate_failed. }
  destruct (Ha1 0 _ ltac:(left)) as [Hf0 [text_en Hen]%failure_None].
  destruct (Ha1 1 _ ltac:(right; left)) as [Hf1 [text_hi Hhi]%failure_None].
  cbn [coro result_of] in Hen, Hhi.
  change (GoogleTranslator_translate (lit "kn") (lit "en") text) with (translate_en text) in Hen.
  change (GoogleTranslator_translate (lit "kn") (lit "hi") text) with (translate_hi text) in Hhi.
  assert (Hin0 : 0 ∈ ds1).
  { apply (finished_during (mkLoop 3 [0; 1; 2]) l1 ds1 0 Hr1 Hf0). left. }
  assert (Hin1 : 1 ∈ ds1).
  { apply (finished_during (mkLoop 3 [0; 1; 2]) l1 ds1 1 Hr1 Hf1). right; left. }
  rewrite Hen, Hhi.
  cbn [exec perform fs entropy drawn disk writes next_tid running]. rewrite Hn1.
  destruct (await_all _ _ _ sched1) as [[[a2 l2] sched2] evs2] eqn:G2.
  apply await_all_inv in G2 as (ds2 & -> & Hn2 & Hr2 & Hd2 & Ha2).
  cbn [next_tid running] in Hn2, Hr2, Hd2, Ha2.
  cbn [coro result_of call_of].
  change (os_path.join AUDIO_DIR (hex (entropy w (S (drawn w))) ++ lit "_kn.mp3"))
    with (audio_kn_file w) in *.
  change (os_path.join AUDIO_DIR (hex (entropy w (S (S (drawn w)))) ++ lit "_en.mp3"))
    with (audio_en_file w) in *.
  change (os_path.join AUDIO_DIR (hex (entropy w (S (S (S (drawn w))))) ++ lit "_hi.mp3"))
    with (audio_hi_file w) in *.
  destruct a2 as [|e|].
  3:{ exfalso. destruct Ha2 as [Hlt | (t & oe & Hin & Hle)]; [lia|].
      unfold awaitable in Hin; cbn [tid] in Hin.
      apply elem_of_cons in Hin as [[= -> _] | Hin]; [lia|].
      apply elem_of_cons in Hin as [[= -> _] | Hin]; [lia|].
      apply list_elem_of_singleton in Hin as [= -> _]. lia. }
  2:{ destruct Ha2 as (t & Hin & _).
      unfold awaitable in Hin; cbn [tid coro] in Hin.
      assert (text_to_speech text (lit "kn") (audio_kn_file w) = inl e
              \/ text_to_speech text_en (lit "en") (audio_en_file w) = inl e
              \/ text_to_speech text_hi (lit "hi") (audio_hi_file w) = inl e) as Hfail.
      { apply elem_of_cons in Hin as [[= _ Hf] | Hin].
        { left. symmetry in Hf. by apply failure_Some in Hf. }
        apply elem_of_cons in Hin as [[= _ Hf] | Hin].
        { right; left. symmetry in Hf. by apply failure_Some in Hf. }
        apply list_elem_of_singleton in Hin as [= _ Hf].
        right; right. symmetry in Hf. by apply failure_Some in Hf. }
      cbn [app]. by eapply Run_tts_failed. }
  destruct (Ha2 2 _ ltac:(left)) as [Hf2 [[] Hkn]%failure_None].
  destruct (Ha2 3 _ ltac:(right; left)) as [Hf3 [[] Hte]%failure_None].
  destruct (Ha2 4 _ ltac:(right; right; left)) as [Hf4 [[] Hth]%failure_None].
  cbn [coro result_of] in Hkn, Hte, Hth.
  rewrite Hkn, Hte, Hth. cbn [app]. rewrite app_nil_r.
  apply (Run_full file w image0 image text text_en text_hi ds1 ds2); try done.
  intros t Ht. apply elem_of_app.
  pose proof (finished_during (mkLoop 5 ((running l1 ++ [3]) ++ [4])) l2 ds2) as Hfin.
  cbn [running] in Hfin.
  apply elem_of_cons in Ht as [-> | Ht].
  { destruct (decide (2 ∈ running l1)) as [Hrun | Hrun].
    - right. apply Hfin; [done | done |]. rewrite !elem_of_app. by left; left.
    - left. destruct (decide (2 ∈ ds1)) as [|Hn]; [done|].
      destruct Hrun. apply Hr1. split; [|done]. right; right; left. }
  right.
  apply elem_of_cons in Ht as [-> | Ht].
  { apply Hfin; [done | done |]. rewrite !elem_of_app, !list_elem_of_singleton. tauto. }
  apply list_elem_of_singleton in Ht as ->.
  apply Hfin; [done | done |]. rewrite !elem_of_app, !list_elem_of_singleton. tauto.
Qed.

Lemma run_process_sound file w sched o w' evs :
  run_process file w sched = (o, w', evs) -> Run file w o w' evs.
Proof.
  intros E. pose proof (run_process_cases file w sched) as R.
  by rewrite E in R.
Qed.

End Soundness.

(** ** Facts about traces *)

Section TraceFacts.

Context `{Collaborators}.

Lemma omap_done {B} (f : Event -> option B) (ds : list nat) :
  (forall t, f (EvDone t) = None) -> omap f (EvDone <$> ds) = [].
Proof.
  intros Hf. induction ds as [|t ds IH]; [done|].
  cbn. by rewrite Hf.
Qed.

Lemma count_app {A} (p : A -> bool) (l1 l2 : list A) :
  count p (l1 ++ l2) = count p l1 + count p l2.
Proof. induction l1 as [|x l1 IH]; simpl; [done|]. rewrite IH. lia. Qed.

Lemma count_done (p : Event -> bool) (ds : list nat) :
  (forall t, p (EvDone t) = false) -> count p (EvDone <$> ds) = 0.
Proof.
  intros Hp. induction ds as [|t ds IH]; [done|].
  cbn. by rewrite Hp, IH.
Qed.

Lemma existsb_done t (ds : list nat) :
  t ∈ ds -> existsb (is_done t) (EvDone <$> ds) = true.
Proof.
  intros Hin. apply existsb_exists. exists (EvDone t). split.
  - apply list_elem_of_In. by apply list_elem_of_fmap_2.
  - simpl. apply Nat.eqb_refl.
Qed.

(** An event of the first kind in the front part and one of the second
    kind in the rear part are in order. *)
Lemma precedes_app P Q (l1 l2 : list Event) :
  existsb P l1 = true -> existsb Q l2 = true -> precedes P Q (l1 ++ l2) = true.
Proof.
  intros H1 H2. induction l1 as [|e l1 IH]; [done|].
  simpl in *. rewrite existsb_app, H2.
  destruct (P e); simpl in *.
  - by rewrite orb_true_r.
  - by rewrite IH.
Qed.

End TraceFacts.

(** Computing an observation of a trace of one of the shapes of [Run]. *)
Ltac observe :=
  unfold written_paths, created, uuids_of, tts_files,
    ocr_calls, translate_calls, tts_calls;
  unfold created;
  rewrite ?omap_app, ?count_app;
  rewrite ?omap_done, ?count_done by (intros; reflexivity);
  cbn [omap list_omap upload_events wave1 wave2 app count].

(** Closed decidable facts about literals. *)
Ltac by_compute :=
  match goal with
  | |- ?P => apply (@bool_decide_unpack P _); vm_compute; exact I
  end.

(** Splitting a membership in a trace into its cases. *)
Ltac in_trace H :=
  unfold upload_events, wave1, wave2 in H;
  repeat first
    [ apply elem_of_nil in H; destruct H
    | apply elem_of_cons in H as [H | H]
    | apply elem_of_app in H as [H | H]
    | apply list_elem_of_fmap in H as (? & H & _) ];
  try discriminate H.

(** Closed numeric facts about the calls of a trace: by evaluation. *)
Ltac by_counting :=
  observe;
  lazymatch goal with
  | |- _ <= _ => apply Nat.leb_le; reflexivity
  | |- _ = _ => reflexivity
  end.

(** ** Properties of the handler *)

Section Claims.

Context `{Collaborators}.

(** C3, where the code departs from it.  A part that declares no content
    type is no image upload, and it is not answered with the client error:
    line 65 calls [startswith] on [None], the handler raises
    [AttributeError], and the answer is the server error 500.  Nothing has
    happened by then: no event, and the world is as before. *)
Theorem no_content_type_server_error file w sched :
  content_type file = None ->
  exists o, run_process file w sched = (o, w, [])
    /\ o = Raised AttributeError
    /\ status o = Some 500%Z
    /\ status o <> Some 400%Z.
Proof.
  intros Hct. unfold run_process, process. rewrite Hct. cbn [exec].
  eexists. split; [reflexivity|]. by repeat split.
Qed.

(** The two checks.  A request that declares a content type which does
    not begin with [image/], and a request with an image content type and
    an empty body, fail with the client error 400; nothing has happened by
    then: no event, and the world, its file system included, is as
    before. *)
Theorem invalid_upload_rejected file w sched ct :
  content_type file = Some ct ->
  (Py.startswith ct (lit "image/") = false ->
   exists o, run_process file w sched = (o, w, [])
     /\ o = Raised (HTTPException 400 (lit "File must be an image"))
     /\ status o = Some 400%Z)
  /\ (Py.startswith ct (lit "image/") = true -> read file = [] ->
      exists o, run_process file w sched = (o, w, [])
        /\ o = Raised (HTTPException 400 (lit "Empty file"))
        /\ status o = Some 400%Z).
Proof.
  intros Hct. unfold run_process, process. rewrite Hct. split.
  - intros ->. cbn [negb exec]. eauto.
  - intros -> ->. cbn [negb exec]. eauto.
Qed.

(** C2. When the text the OCR adapter returned is empty or white space
    only, the handler returns, no task was created (so no translation and
    no speech synthesis was attempted), and the response has empty texts,
    null audio fields and the error message "No text found". *)
Theorem blank_text_short_circuit file w sched o w' evs image filename text :
  run_process file w sched = (o, w', evs) ->
  EvOcr image filename (inr text) ∈ evs ->
  Forall (fun c => Py.isspace c = true) text ->
  created evs = []
  /\ exists r, o = Returned r
       /\ text_kn r = [] /\ text_en r = [] /\ text_hi r = []
       /\ audio_kn r = None /\ audio_en r = None /\ audio_hi r = None
       /\ error r = Some (lit "No text found").
Proof.
  intros Hrun Hin Hblank%strip_nil_iff.
  apply run_process_sound in Hrun.
  inversion Hrun; subst; in_trace Hin;
    injection Hin as -> -> ->; try done.
  split; [done|]. exists (no_text (upload_filename w)). by repeat split.
Qed.

(** C9. Once the two checks are passed the upload is stored under a name
    that ends in [.jpg], whatever the declared image type: the handler
    draws a UUID and writes to the path made of the uploads directory, the
    hexadecimal form of the UUID and [.jpg].  When the write succeeds the
    stored bytes are the uploaded ones, unconverted, and it is the only
    file the handler itself writes; when the write fails the handler
    raises the error, and no file under another name has changed. *)
Theorem upload_stored_as_jpg file w sched ct o w' evs :
  content_type file = Some ct ->
  Py.startswith ct (lit "image/") = true ->
  read file <> [] ->
  run_process file w sched = (o, w', evs) ->
  let u := entropy w (drawn w) in
  let path := os_path.join UPLOADS_DIR (hex u ++ lit ".jpg") in
  Py.endswith path (lit ".jpg") = true
  /\ os_path.basename path = hex u ++ lit ".jpg"
  /\ (storing w = DiskOk ->
      (exists evs', evs = EvUuid u :: EvWrite path (read file) :: evs')
      /\ written_paths evs = [path]
      /\ fs w' = <[path := read file]> (fs w)
      /\ fs w' !! path = Some (read file))
  /\ (forall e, write_error (storing w) = Some e ->
      o = Raised e
      /\ evs = [EvUuid u; EvWriteFailed path e]
      /\ forall p, p <> path -> fs w' !! p = fs w !! p).
Proof.
  intros Hct Himg Hne Hrun u path.
  split; [apply join_endswith|].
  split; [apply basename_join; by_compute|].
  apply run_process_sound in Hrun.
  split.
  - intros Hok%write_error_None.
    inversion Hrun; subst; try congruence;
      (split; [eexists; reflexivity|]);
      (split; [observe; reflexivity |]);
      (split; [reflexivity | apply lookup_insert_eq]).
  - intros e He. inversion Hrun; subst; try congruence.
    match goal with
    | Hf : write_error (storing w) = Some ?e' |- _ =>
        assert (e' = e) by congruence; subst e'
    end.
    split; [reflexivity|]. split; [reflexivity|].
    intros p Hp. cbn [not_stored fs]. unfold write_to.
    destruct (storing w); [done | done |].
    apply lookup_insert_ne. intros Heq. apply Hp. symmetry. exact Heq.
Qed.

(** C10. On the short-circuit path the trace is: draw the upload name,
    write the upload, call the OCR adapter.  The write comes first and is
    not undone: the file is in the file system the request leaves, and the
    [image_url] of the response names it. *)
Theorem no_text_keeps_upload file w sched r w' evs :
  run_process file w sched = (Returned r, w', evs) ->
  error r <> None ->
  let u := entropy w (drawn w) in
  let path := os_path.join UPLOADS_DIR (hex u ++ lit ".jpg") in
  (exists image text,
     evs = [EvUuid u; EvWrite path (read file);
            EvOcr image (hex u ++ lit ".jpg") (inr text)])
  /\ error r = Some (lit "No text found")
  /\ image_url r = lit "/static/uploads/" ++ os_path.basename path
  /\ fs w' !! path = Some (read file).
Proof.
  intros Hrun Herr u path.
  assert (os_path.basename path = hex u ++ lit ".jpg") as ->
    by (apply basename_join; by_compute).
  apply run_process_sound in Hrun.
  inversion Hrun; subst; [|done].
  split; [by eexists _, _|].
  split; [done|]. split; [done|]. apply lookup_insert_eq.
Qed.

(** C8. The image handed to the OCR adapter has mode RGB: it is the
    decoded image itself when that one is RGB already, and its conversion
    to RGB otherwise.  (Pillow's [convert] returns an image of the mode it
    was asked for.) *)
Theorem ocr_image_is_rgb file w sched o w' evs image filename result :
  (forall i i', convert i (lit "RGB") = inr i' -> mode i' = lit "RGB") ->
  run_process file w sched = (o, w', evs) ->
  EvOcr image filename result ∈ evs ->
  mode image = lit "RGB"
  /\ exists image0,
       Image_open (read file) = inr image0
       /\ (mode image0 = lit "RGB" -> image = image0)
       /\ (mode image0 <> lit "RGB" -> convert image0 (lit "RGB") = inr image).
Proof.
  intros Hconv Hrun Hin.
  apply run_process_sound in Hrun.
  assert (forall image0, to_rgb image0 = inr image ->
            mode image = lit "RGB"
            /\ (mode image0 = lit "RGB" -> image = image0)
            /\ (mode image0 <> lit "RGB" -> convert image0 (lit "RGB") = inr image))
    as Hrgb.
  { intros image0. unfold to_rgb. case_bool_decide as Hm.
    - intros Hc. split; [by eapply Hconv|]. by split.
    - intros [= ->]. by repeat split. }
  inversion Hrun; subst; in_trace Hin; injection Hin as -> -> ->;
    match goal with
    | Hr : to_rgb ?i = inr _ |- _ =>
        destruct (Hrgb _ Hr) as (? & ? & ?); split; [done|]; by exists i
    end.
Qed.

(** C4. When the OCR text is not blank and the handler returns, the
    payload holds the URL of the stored upload, the OCR text, the two
    translations of that text, the URLs of the three audio files and a
    null error; and the handler does return whenever the two translations
    and the three syntheses succeed. *)
Theorem full_payload file w sched o w' evs image filename text :
  run_process file w sched = (o, w', evs) ->
  EvOcr image filename (inr text) ∈ evs ->
  Py.strip text <> [] ->
  (forall r, o = Returned r ->
     image_url r = lit "/static/uploads/" ++ hex (nth_uuid w 0) ++ lit ".jpg"
     /\ text_kn r = text /\ text_kn r <> []
     /\ translate_en text = inr (text_en r)
     /\ translate_hi text = inr (text_hi r)
     /\ audio_kn r = Some (lit "/static/audio/" ++ hex (nth_uuid w 1) ++ lit "_kn.mp3")
     /\ audio_en r = Some (lit "/static/audio/" ++ hex (nth_uuid w 2) ++ lit "_en.mp3")
     /\ audio_hi r = Some (lit "/static/audio/" ++ hex (nth_uuid w 3) ++ lit "_hi.mp3")
     /\ error r = None)
  /\ (forall t_en t_hi,
        translate_en text = inr t_en ->
        translate_hi text = inr t_hi ->
        text_to_speech text (lit "kn") (audio_kn_file w) = inr tt ->
        text_to_speech t_en (lit "en") (audio_en_file w) = inr tt ->
        text_to_speech t_hi (lit "hi") (audio_hi_file w) = inr tt ->
        exists r, o = Returned r).
Proof.
  intros Hrun Hin Hne.
  apply run_process_sound in Hrun.
  inversion Hrun; subst; in_trace Hin; injection Hin as -> -> ->;
    try done; (split; [intros r [= <-] | intros t_en t_hi Hen Hhi Hk He Hh]).
  - repeat match goal with Hd : _ \/ _ |- _ => destruct Hd end; congruence.
  - repeat match goal with Hd : _ \/ _ |- _ => destruct Hd end; congruence.
  - unfold full; cbn [image_url text_kn text_en text_hi audio_kn audio_en audio_hi error].
    unfold audio_kn_file, audio_en_file, audio_hi_file.
    rewrite !basename_join by by_compute.
    repeat split; try done.
    intros ->. done.
  - eauto.
Qed.

(** C6. In an execution that returns the full payload exactly three
    speech syntheses are started, and each one gets the text and the
    language of the file it writes: the [_kn.mp3] file the OCR text and
    [kn], the [_en.mp3] file the English translation and [en], the
    [_hi.mp3] file the Hindi translation and [hi]. *)
Theorem speech_matches_language file w sched r w' evs :
  run_process file w sched = (Returned r, w', evs) ->
  error r = None ->
  (forall t text lang filename,
     EvCreate t (CallTTS text lang filename) ∈ evs ->
     (Py.endswith filename (lit "_kn.mp3") = true ->
      text = text_kn r /\ lang = lit "kn")
     /\ (Py.endswith filename (lit "_en.mp3") = true ->
         text = text_en r /\ lang = lit "en")
     /\ (Py.endswith filename (lit "_hi.mp3") = true ->
         text = text_hi r /\ lang = lit "hi"))
  /\ translate_en (text_kn r) = inr (text_en r)
  /\ translate_hi (text_kn r) = inr (text_hi r)
  /\ exists f_kn f_en f_hi,
       tts_files evs = [f_kn; f_en; f_hi]
       /\ Py.endswith f_kn (lit "_kn.mp3") = true
       /\ Py.endswith f_en (lit "_en.mp3") = true
       /\ Py.endswith f_hi (lit "_hi.mp3") = true
       /\ EvCreate 2 (CallTTS (text_kn r) (lit "kn") f_kn) ∈ evs
       /\ EvCreate 3 (CallTTS (text_en r) (lit "en") f_en) ∈ evs
       /\ EvCreate 4 (CallTTS (text_hi r) (lit "hi") f_hi) ∈ evs.
Proof.
  intros Hrun Herr.
  apply run_process_sound in Hrun.
  inversion Hrun; subst; [done|]. clear Herr.
  cbn [full text_kn text_en text_hi].
  split; [|split; [done|split; [done|]]].
  - intros t txt lang filename Hin.
    in_trace Hin; injection Hin as -> -> -> ->;
      unfold audio_kn_file, audio_en_file, audio_hi_file;
      rewrite ?join_endswith;
      rewrite ?join_endswith_other by (by_compute || reflexivity);
      by repeat split.
  - exists (audio_kn_file w), (audio_en_file w), (audio_hi_file w).
    split; [observe; reflexivity|].
    split; [apply join_endswith|].
    split; [apply join_endswith|].
    split; [apply join_endswith|].
    unfold upload_events, wave1, wave2.
    rewrite !elem_of_app, !elem_of_cons. tauto.
Qed.

Lemma is_wave2_kn text filename : is_wave2 (CallTTS text (lit "kn") filename) = false.
Proof. reflexivity. Qed.

Lemma is_wave2_en text filename : is_wave2 (CallTTS text (lit "en") filename) = true.
Proof. reflexivity. Qed.

Lemma is_wave2_hi text filename : is_wave2 (CallTTS text (lit "hi") filename) = true.
Proof. reflexivity. Qed.

Lemma is_wave2_translate source target text :
  is_wave2 (CallTranslate source target text) = false.
Proof. reflexivity. Qed.

Lemma existsb_done_shape (A B C : list Event) ds1 ds2 t :
  t ∈ ds1 ++ ds2 ->
  existsb (is_done t) (A ++ (EvDone <$> ds1) ++ B ++ (EvDone <$> ds2) ++ C) = true.
Proof.
  intros Hin. rewrite !existsb_app.
  apply elem_of_app in Hin as [Hin | Hin]; rewrite (existsb_done _ _ Hin);
    by rewrite ?orb_true_r.
Qed.

Lemma waits_for_shape (A B : list Event) ds t1 t2 :
  t1 ∈ ds -> existsb (is_create t2) B = true ->
  waits_for (A ++ (EvDone <$> ds) ++ B) t1 t2 = true.
Proof.
  intros Hin Hb. unfold waits_for. rewrite app_assoc.
  apply precedes_app; [|done].
  rewrite existsb_app, (existsb_done _ _ Hin). apply orb_true_r.
Qed.

Lemma created_two_waves (A : list Event) w text text_en text_hi ds1 ds2 :
  created A = [] ->
  created (A ++ wave1 w text ++ (EvDone <$> ds1)
             ++ wave2 w text_en text_hi ++ (EvDone <$> ds2))
  = five_tasks w text text_en text_hi.
Proof. intros HA. observe. fold (created A). by rewrite HA. Qed.

Lemma barrier_two_waves (A : list Event) w text text_en text_hi ds1 ds2 :
  created A = [] -> 0 ∈ ds1 -> 1 ∈ ds1 ->
  barrier is_translation
    (A ++ wave1 w text ++ (EvDone <$> ds1)
       ++ wave2 w text_en text_hi ++ (EvDone <$> ds2)) = true.
Proof.
  intros HA H0 H1. unfold barrier. rewrite created_two_waves by done.
  assert (forall t1 t2, t1 ∈ ds1 ->
            existsb (is_create t2) (wave2 w text_en text_hi ++ (EvDone <$> ds2)) = true ->
            waits_for (A ++ wave1 w text ++ (EvDone <$> ds1)
                         ++ wave2 w text_en text_hi ++ (EvDone <$> ds2)) t1 t2 = true)
    as Hw.
  { intros t1 t2 Hin Hc. rewrite (app_assoc A). by apply waits_for_shape. }
  cbn [five_tasks forallb fst snd is_translation].
  rewrite ?is_wave2_translate, ?is_wave2_kn, ?is_wave2_en, ?is_wave2_hi.
  cbn [negb orb andb].
  rewrite !Hw by (assumption || reflexivity). reflexivity.
Qed.

Lemma all_done_two_waves (A : list Event) w text text_en text_hi ds1 ds2 :
  created A = [] ->
  (forall t, t ∈ [0; 1; 2; 3; 4] -> t ∈ ds1 ++ ds2) ->
  all_done
    (A ++ wave1 w text ++ (EvDone <$> ds1)
       ++ wave2 w text_en text_hi ++ (EvDone <$> ds2)) = true.
Proof.
  intros HA Hall. unfold all_done. rewrite created_two_waves by done.
  assert (forall t, t ∈ [0; 1; 2; 3; 4] ->
            existsb (is_done t)
              (A ++ wave1 w text ++ (EvDone <$> ds1)
                 ++ wave2 w text_en text_hi ++ (EvDone <$> ds2)) = true) as Hd.
  { intros t Ht. rewrite (app_assoc A).
    rewrite <- (app_nil_r (EvDone <$> ds2)).
    apply existsb_done_shape. by apply Hall. }
  cbn [five_tasks forallb fst].
  rewrite !Hd; [done | rewrite !elem_of_cons; tauto ..].
Qed.

(** C1, as the code has it.  When the OCR text is not blank the two
    translations and the Kannada synthesis are created one after the
    other, before anything is awaited; the English and the Hindi synthesis
    are created only after both translation tasks have completed (the
    Kannada synthesis may still be running then); and when the handler
    returns, every task it created has completed. *)
Theorem second_wave_waits_for_translations file w sched o w' evs image filename text :
  run_process file w sched = (o, w', evs) ->
  EvOcr image filename (inr text) ∈ evs ->
  Py.strip text <> [] ->
  (exists pre post audio_kn_file,
     evs = pre ++ [EvCreate 0 (CallTranslate (lit "kn") (lit "en") text);
                   EvCreate 1 (CallTranslate (lit "kn") (lit "hi") text);
                   EvCreate 2 (CallTTS text (lit "kn") audio_kn_file)] ++ post
     /\ created pre = []
     /\ existsb (fun e => match e with EvDone _ => true | _ => false end) pre = false)
  /\ barrier is_translation evs = true
  /\ (forall r, o = Returned r -> all_done evs = true).
Proof.
  intros Hrun Hin Hne.
  apply run_process_sound in Hrun.
  inversion Hrun; subst; in_trace Hin; injection Hin as -> -> ->; try done.
  - split; [|split; [|done]].
    + eexists [_; _; _; _; _; _], _, _.
      split; [reflexivity | by split].
    + unfold barrier. observe. cbn [forallb snd].
      by rewrite ?is_wave2_translate, ?is_wave2_kn.
  - split; [|split; [|done]].
    + eexists [_; _; _; _; _; _], _, _.
      split; [reflexivity | by split].
    + rewrite app_assoc. by apply barrier_two_waves.
  - split; [|split].
    + eexists [_; _; _; _; _; _], _, _.
      split; [reflexivity | by split].
    + rewrite app_assoc. by apply barrier_two_waves.
    + intros _ _. rewrite app_assoc. apply all_done_two_waves; [done|].
      intros t Ht.
      apply elem_of_cons in Ht as [-> | Ht]; [apply elem_of_app; by left|].
      apply elem_of_cons in Ht as [-> | Ht]; [apply elem_of_app; by left|].
      auto.
Qed.

(** C5, as the code has it.  No call is attempted twice: in every
    execution the OCR adapter, each of the two translations and each of the
    three syntheses is called at most once, and these are all the calls
    made from tasks.  A call is made exactly once whenever the execution
    gets to it: the OCR call when the upload passes the checks, is
    written to the uploads directory, decodes and, unless it is RGB
    already, converts to RGB; the two translations and the Kannada
    synthesis when the OCR text is not blank; the English and the Hindi
    synthesis when moreover both translations succeed; all six in an
    execution that returns the full payload. *)
Theorem each_call_at_most_once file w sched o w' evs :
  run_process file w sched = (o, w', evs) ->
  (ocr_calls evs <= 1
   /\ translate_calls (lit "en") evs <= 1 /\ translate_calls (lit "hi") evs <= 1
   /\ tts_calls (lit "kn") evs <= 1 /\ tts_calls (lit "en") evs <= 1
   /\ tts_calls (lit "hi") evs <= 1
   /\ length (created evs)
      = translate_calls (lit "en") evs + translate_calls (lit "hi") evs
        + tts_calls (lit "kn") evs + tts_calls (lit "en") evs
        + tts_calls (lit "hi") evs)
  /\ (accepted file ->
      storing w = DiskOk ->
      (exists image0 image,
         Image_open (read file) = inr image0 /\ to_rgb image0 = inr image) ->
      ocr_calls evs = 1)
  /\ (forall image filename text,
        EvOcr image filename (inr text) ∈ evs -> Py.strip text <> [] ->
        translate_calls (lit "en") evs = 1 /\ translate_calls (lit "hi") evs = 1
        /\ tts_calls (lit "kn") evs = 1
        /\ ((exists text_en text_hi,
               translate_en text = inr text_en /\ translate_hi text = inr text_hi) ->
            tts_calls (lit "en") evs = 1 /\ tts_calls (lit "hi") evs = 1))
  /\ (forall r, o = Returned r -> error r = None ->
        ocr_calls evs = 1
        /\ translate_calls (lit "en") evs = 1 /\ translate_calls (lit "hi") evs = 1
        /\ tts_calls (lit "kn") evs = 1 /\ tts_calls (lit "en") evs = 1
        /\ tts_calls (lit "hi") evs = 1).
Proof.
  intros Hrun. apply run_process_sound in Hrun.
  split; [|split; [|split]].
  - inversion Hrun; subst; repeat split; by_counting.
  - intros (ct & Hct & Himg & Hne) Hok%write_error_None
      (image0 & image & Hopen & Hrgb).
    inversion Hrun; subst; try congruence; by_counting.
  - intros image filename text Hin Hne.
    inversion Hrun; subst; in_trace Hin; injection Hin as -> -> ->; try done;
      (split; [by_counting|]); (split; [by_counting|]); (split; [by_counting|]);
      intros (t_en & t_hi & Hen & Hhi).
    + repeat match goal with Hd : _ \/ _ |- _ => destruct Hd end; congruence.
    + split; by_counting.
    + split; by_counting.
  - intros r -> Herr.
    inversion Hrun; subst; [done|]. repeat split; by_counting.
Qed.

Lemma NoDup_fmap_eq {A B} (f : A -> B) (l : list A) x y :
  NoDup (f <$> l) -> x ∈ l -> y ∈ l -> f x = f y -> x = y.
Proof.
  induction l as [|a l IH]; cbn; [by intros _ ?%elem_of_nil|].
  intros [Ha Hl]%NoDup_cons [-> | Hx]%elem_of_cons [-> | Hy]%elem_of_cons E.
  - done.
  - destruct Ha. rewrite E. by apply list_elem_of_fmap_2.
  - destruct Ha. rewrite <- E. by apply list_elem_of_fmap_2.
  - by apply IH.
Qed.

(** Names generated from UUIDs that differ pairwise, with suffixes of one
    length, differ pairwise. *)
Lemma generated_names_NoDup n (l : list (UUID * str)) :
  Forall (fun p => length p.2 = n) l ->
  NoDup (int <$> l.*1) ->
  NoDup (generated_name <$> l).
Proof.
  intros Hlen Hnd. rewrite Forall_forall in Hlen.
  rewrite <- list_fmap_compose in Hnd.
  apply NoDup_fmap_2_strong; [|by eapply NoDup_fmap_1].
  intros [u s] [u' s'] Hx Hy E. unfold generated_name in E; cbn [fst snd] in E.
  apply app_inj_2 in E as [E1%hex_inj E2].
  - apply (NoDup_fmap_eq _ _ _ _ Hnd Hx Hy E1).
  - pose proof (Hlen _ Hx) as L1. pose proof (Hlen _ Hy) as L2.
    cbn [snd] in L1, L2. congruence.
Qed.

Lemma basename_in_dir dir (l : list (UUID * str)) :
  Forall (fun p => os_path.sep ∉ p.2) l ->
  os_path.basename <$> (in_dir dir <$> l) = generated_name <$> l.
Proof.
  intros Hs. rewrite <- list_fmap_compose.
  apply Forall_fmap_ext_1. eapply Forall_impl; [exact Hs|].
  intros [u s] Hsep. unfold compose, in_dir, generated_name.
  cbn [fst snd] in *. apply basename_join. exact Hsep.
Qed.

(** The names an execution uses: the upload from the first UUID it drew,
    the audio files from the following ones. *)
Lemma run_names file w o w' evs :
  Run file w o w' evs ->
  exists up au : list (UUID * str),
    written_paths evs = in_dir UPLOADS_DIR <$> up
    /\ tts_files evs = in_dir AUDIO_DIR <$> au
    /\ Forall (fun p => p.2 = lit ".jpg") up
    /\ Forall (fun p => p.2 ∈ [lit "_kn.mp3"; lit "_en.mp3"; lit "_hi.mp3"]) au
    /\ up.*1 `sublist_of` uuids_of evs
    /\ au.*1 `sublist_of` uuids_of evs.
Proof.
  set (jpg := (nth_uuid w 0, lit ".jpg")).
  set (kn := (nth_uuid w 1, lit "_kn.mp3")).
  set (en := (nth_uuid w 2, lit "_en.mp3")).
  set (hi := (nth_uuid w 3, lit "_hi.mp3")).
  assert (forall x : str, x ∈ [lit "_kn.mp3"; lit "_en.mp3"; lit "_hi.mp3"] <->
            x = lit "_kn.mp3" \/ x = lit "_en.mp3" \/ x = lit "_hi.mp3") as Hsfx.
  { intros x. rewrite !elem_of_cons, elem_of_nil. tauto. }
  destruct 1;
    [ exists [], [] | exists [], [] | exists [], [] | exists [], []
    | exists [jpg], [] | exists [jpg], [] | exists [jpg], [] | exists [jpg], []
    | exists [jpg], [kn]
    | exists [jpg], [kn; en; hi] | exists [jpg], [kn; en; hi] ];
    observe; repeat split;
    first
      [ by repeat constructor
      | repeat constructor; apply Hsfx; tauto
      | apply sublist_nil_l
      | apply sublist_skip, sublist_nil_l
      | apply sublist_cons, sublist_skip, sublist_nil_l
      | apply sublist_cons; reflexivity ].
Qed.

Lemma names_of_two_runs dir n (l1 l2 : list (UUID * str)) (us1 us2 : list UUID) :
  Forall (fun p => length p.2 = n /\ os_path.sep ∉ p.2) (l1 ++ l2) ->
  l1.*1 `sublist_of` us1 -> l2.*1 `sublist_of` us2 ->
  NoDup (int <$> (us1 ++ us2)) ->
  NoDup (os_path.basename <$> ((in_dir dir <$> l1) ++ (in_dir dir <$> l2))).
Proof.
  intros Hall S1 S2 Hnd.
  rewrite <- fmap_app, basename_in_dir
    by (eapply Forall_impl; [exact Hall | by intros ? [_ ?]]).
  apply (generated_names_NoDup n).
  - eapply Forall_impl; [exact Hall | by intros ? [? _]].
  - eapply sublist_NoDup; [exact Hnd|].
    apply fmap_sublist. rewrite fmap_app. by apply sublist_app.
Qed.

(** C7. Two executions whose UUIDs are pairwise distinct use distinct
    names: the two uploads are stored under different file names, and the
    audio files of the two requests, up to three each, have pairwise
    different file names; so the paths differ as well. *)
Theorem distinct_uuids_distinct_names
    file1 w1 sched1 o1 w1' evs1 file2 w2 sched2 o2 w2' evs2 :
  run_process file1 w1 sched1 = (o1, w1', evs1) ->
  run_process file2 w2 sched2 = (o2, w2', evs2) ->
  NoDup (int <$> (uuids_of evs1 ++ uuids_of evs2)) ->
  NoDup (os_path.basename <$> (written_paths evs1 ++ written_paths evs2))
  /\ NoDup (os_path.basename <$> (tts_files evs1 ++ tts_files evs2))
  /\ NoDup (written_paths evs1 ++ written_paths evs2)
  /\ NoDup (tts_files evs1 ++ tts_files evs2).
Proof.
  intros Hrun1 Hrun2 Hnd.
  apply run_process_sound, run_names in Hrun1
    as (up1 & au1 & -> & -> & Hup1 & Hau1 & Sup1 & Sau1).
  apply run_process_sound, run_names in Hrun2
    as (up2 & au2 & -> & -> & Hup2 & Hau2 & Sup2 & Sau2).
  assert (NoDup (os_path.basename <$>
            ((in_dir UPLOADS_DIR <$> up1) ++ (in_dir UPLOADS_DIR <$> up2)))) as Hw.
  { apply (names_of_two_runs _ 4 _ _ (uuids_of evs1) (uuids_of evs2)); try done.
    apply Forall_app; split;
      [apply (Forall_impl _ _ _ Hup1) | apply (Forall_impl _ _ _ Hup2)];
      intros [u s] Hs; cbn [snd] in *; subst s; (split; [done | by_compute]). }
  assert (NoDup (os_path.basename <$>
            ((in_dir AUDIO_DIR <$> au1) ++ (in_dir AUDIO_DIR <$> au2)))) as Ha.
  { apply (names_of_two_runs _ 7 _ _ (uuids_of evs1) (uuids_of evs2)); try done.
    apply Forall_app; split;
      [apply (Forall_impl _ _ _ Hau1) | apply (Forall_impl _ _ _ Hau2)];
      intros [u s] Hs; cbn [snd] in *;
      rewrite !elem_of_cons, elem_of_nil in Hs;
      destruct Hs as [-> | [-> | [-> | []]]]; split; (done || by_compute). }
  split; [done|]. split; [done|].
  split; by eapply NoDup_fmap_1.
Qed.

End Claims.

(** ** Further properties of the handler *)

(** Two results of one call are the same result. *)
Ltac same_results :=
  repeat match goal with
    | H1 : ?x = inr ?a, H2 : ?x = inr ?b |- _ =>
        assert (a = b) by congruence; subst b; clear H2
    | H1 : ?x = inl ?a, H2 : ?x = inl ?b |- _ =>
        assert (a = b) by congruence; subst b; clear H2
    end.

Ltac split_cases :=
  repeat match goal with
    | Hd : _ \/ _ |- _ => destruct Hd
    | Ha : accepted _ |- _ => destruct Ha as (? & ? & ? & ?)
    end.

Section Further.

Context `{Collaborators}.

(** What an accepted request does to the world when its upload can be
    written: it stores the upload and draws one UUID, or four when it gets
    to the audio names. *)
Lemma accepted_run_world file w o w' evs :
  Run file w o w' evs -> accepted file -> storing w = DiskOk ->
  fs w' = <[upload_path w := read file]> (fs w)
  /\ entropy w' = entropy w
  /\ (drawn w' = 1 + drawn w \/ drawn w' = 4 + drawn w).
Proof.
  intros Hrun (ct & Hct & Himg & Hne) Hok%write_error_None.
  destruct Hrun; try congruence; cbn; auto.
Qed.



(** An accepted request raises only what one of its calls raised: the
    error of writing the upload, the exception of [Image.open], of
    [convert], of the OCR adapter, or of the call of one of the tasks the
    handler created.  The handler adds no error of its own after the two
    checks and changes none. *)
Theorem raised_by_storage_or_collaborator file w sched e w' evs :
  run_process file w sched = (Raised e, w', evs) ->
  accepted file ->
  (write_error (storing w) = Some e
   /\ EvWriteFailed (upload_path w) e ∈ evs)
  \/ Image_open (read file) = inl e
  \/ (exists image0,
        Image_open (read file) = inr image0
        /\ mode image0 <> lit "RGB"
        /\ convert image0 (lit "RGB") = inl e)
  \/ (exists image,
        extract_text image (upload_filename w) = inl e
        /\ EvOcr image (upload_filename w) (inl e) ∈ evs)
  \/ (exists t c, (t, c) ∈ created evs /\ call_failure c = Some e).
Proof.
  intros Hrun%run_process_sound (ct & Hct & Himg & Hne).
  inversion Hrun; subst; try congruence.
  - left. split; [done|]. rewrite !elem_of_cons. tauto.
  - right. by left.
  - right; right; left. exists image0. split; [done|].
    match goal with Hr : to_rgb _ = inl _ |- _ =>
      unfold to_rgb in Hr; case_bool_decide; [done | discriminate Hr] end.
  - right; right; right; left. exists image. split; [done|].
    unfold upload_events. rewrite elem_of_app, !elem_of_cons. tauto.
  - right; right; right; right.
    match goal with Hd : _ \/ _ |- _ => rename Hd into Hf end;
      destruct Hf as [Hf | Hf];
      unfold translate_en, translate_hi in Hf;
      [exists 0, (CallTranslate (lit "kn") (lit "en") text)
      |exists 1, (CallTranslate (lit "kn") (lit "hi") text)];
      (split; [observe; rewrite !elem_of_cons; tauto
              | cbn [call_failure]; by rewrite Hf]).
  - right; right; right; right.
    match goal with Hd : _ \/ _ |- _ => rename Hd into Hf end;
      destruct Hf as [Hf | [Hf | Hf]];
      [exists 2 | exists 3 | exists 4];
      match type of Hf with
      | text_to_speech ?t ?l ?f = _ => exists (CallTTS t l f)
      end;
      (split; [observe; rewrite !elem_of_cons; tauto
              | cbn [call_failure]; by rewrite Hf]).
Qed.

(** A payload is returned only after everything succeeded and finished:
    the OCR call returned, no call of a created task failed, and every
    created task has completed.  There is no partial response. *)
Theorem payload_only_after_success file w sched r w' evs :
  run_process file w sched = (Returned r, w', evs) ->
  (forall image filename result,
     EvOcr image filename result ∈ evs -> exists text, result = inr text)
  /\ (forall t c, (t, c) ∈ created evs -> call_failure c = None)
  /\ all_done evs = true.
Proof.
  intros Hrun%run_process_sound.
  inversion Hrun; subst.
  - split; [|split].
    + intros i f res Hin. in_trace Hin. injection Hin as -> -> ->. eauto.
    + intros t c. observe. by intros ?%elem_of_nil.
    + reflexivity.
  - split; [|split].
    + intros i f res Hin. in_trace Hin. injection Hin as -> -> ->. eauto.
    + intros t c. observe. rewrite !elem_of_cons, elem_of_nil.
      unfold translate_en, translate_hi in *.
      intros [[= -> ->] | [[= -> ->] | [[= -> ->] | [[= -> ->] | [[= -> ->] | []]]]]];
        cbn [call_failure];
        repeat match goal with Hs : _ = inr _ |- _ => rewrite Hs; clear Hs end;
        reflexivity.
    + rewrite app_assoc. apply all_done_two_waves; [done|].
      intros t Ht.
      apply elem_of_cons in Ht as [-> | Ht]; [apply elem_of_app; by left|].
      apply elem_of_cons in Ht as [-> | Ht]; [apply elem_of_app; by left|].
      auto.
Qed.

(** A failing write is fatal for the request and is not cleaned up.
    When the upload cannot be written the handler raises the error of the
    write, which is answered with the server error 500; it has drawn one
    UUID and done nothing else: no decoding, no OCR call, no task.  No
    other file has changed; when [open] failed the file system is as
    before, and when writing failed the truncated file stays in the
    uploads directory. *)
Theorem storage_failure_is_fatal file w sched o w' evs e :
  run_process file w sched = (o, w', evs) ->
  accepted file ->
  write_error (storing w) = Some e ->
  o = Raised e
  /\ ((forall code detail, e <> HTTPException code detail) ->
      status o = Some 500%Z)
  /\ evs = [EvUuid (nth_uuid w 0); EvWriteFailed (upload_path w) e]
  /\ ocr_calls evs = 0 /\ created evs = [] /\ written_paths evs = []
  /\ (forall p, p <> upload_path w -> fs w' !! p = fs w !! p)
  /\ (forall e', storing w = OpenRaises e' -> fs w' = fs w)
  /\ (forall kept e', storing w = WriteRaises kept e' ->
      fs w' !! upload_path w = Some (take kept (read file))).
Proof.
  intros Hrun%run_process_sound (ct & Hct & Himg & Hne) He.
  inversion Hrun; subst; try congruence.
  match goal with
  | Hf : write_error (storing w) = Some ?e' |- _ =>
      assert (e' = e) by congruence; subst e'
  end.
  split; [reflexivity|]. split.
  { intros Hnot. destruct e; [by destruct (Hnot status_code detail) | done ..]. }
  split; [reflexivity|]. split; [reflexivity|].
  split; [reflexivity|]. split; [reflexivity|].
  cbn [not_stored fs]. unfold write_to. split; [|split].
  - intros p Hp. destruct (storing w); [done | done |].
    apply lookup_insert_ne. intros Heq. apply Hp. symmetry. exact Heq.
  - by intros e' ->.
  - intros kept e' ->. apply lookup_insert_eq.
Qed.

(** A failure before the tasks, once the upload is written.  When the
    stored bytes cannot be decoded or converted the handler raises that
    exception right after storing the upload, without calling the OCR
    adapter; when the OCR adapter raises, the handler raises that
    exception and creates no task.  In each case the stored upload stays
    in the file system. *)
Theorem failure_before_tasks file w sched o w' evs :
  run_process file w sched = (o, w', evs) ->
  accepted file ->
  storing w = DiskOk ->
  (forall e,
     Image_open (read file) = inl e
     \/ (exists image0, Image_open (read file) = inr image0
                        /\ to_rgb image0 = inl e) ->
     o = Raised e /\ ocr_calls evs = 0 /\ created evs = []
     /\ written_paths evs = [upload_path w])
  /\ (forall image0 image e,
        Image_open (read file) = inr image0 ->
        to_rgb image0 = inr image ->
        extract_text image (upload_filename w) = inl e ->
        o = Raised e /\ ocr_calls evs = 1 /\ created evs = []
        /\ written_paths evs = [upload_path w])
  /\ fs w' !! upload_path w = Some (read file).
Proof.
  intros Hrun%run_process_sound Hacc Hok.
  pose proof (accepted_run_world _ _ _ _ _ Hrun Hacc Hok) as (Hfs & _ & _).
  apply write_error_None in Hok.
  split; [|split].
  - intros e [Hopen | (image0 & Hopen & Hrgb)];
      destruct Hrun; same_results; split_cases; try congruence;
      (split; [congruence|]); by repeat split.
  - intros image0 image e Hopen Hrgb Hocr.
    destruct Hrun; same_results; split_cases; try congruence;
      (split; [congruence|]); by repeat split.
  - rewrite Hfs. apply lookup_insert_eq.
Qed.

(** Both translations are made from the OCR text itself, from Kannada:
    task 0 into English, task 1 into Hindi; no translation is made of a
    blank text or of another translation. *)
Theorem translations_of_ocr_text file w sched o w' evs t source target text :
  run_process file w sched = (o, w', evs) ->
  EvCreate t (CallTranslate source target text) ∈ evs ->
  source = lit "kn"
  /\ (t = 0 /\ target = lit "en" \/ t = 1 /\ target = lit "hi")
  /\ Py.strip text <> []
  /\ exists image,
       extract_text image (upload_filename w) = inr text
       /\ EvOcr image (upload_filename w) (inr text) ∈ evs.
Proof.
  intros Hrun%run_process_sound Hin.
  inversion Hrun; subst; in_trace Hin; injection Hin as -> -> -> ->;
    (split; [done|]); (split; [tauto|]); (split; [done|]);
    eexists; (split; [eassumption|]);
    unfold upload_events; rewrite !elem_of_app, !elem_of_cons; tauto.
Qed.

(** The OCR adapter is called right after the upload was written, and the
    file name it gets is the name of that upload in the uploads
    directory. *)
Theorem ocr_gets_stored_name file w sched o w' evs image filename result :
  run_process file w sched = (o, w', evs) ->
  EvOcr image filename result ∈ evs ->
  (exists u post,
     evs = EvUuid u :: EvWrite (os_path.join UPLOADS_DIR filename) (read file)
             :: EvOcr image filename result :: post
     /\ filename = hex u ++ lit ".jpg")
  /\ os_path.basename (os_path.join UPLOADS_DIR filename) = filename
  /\ fs w' !! os_path.join UPLOADS_DIR filename = Some (read file)
  /\ result = extract_text image filename.
Proof.
  intros Hrun%run_process_sound Hin.
  inversion Hrun; subst; in_trace Hin; injection Hin as -> -> ->;
    (refine (conj _ (conj _ (conj _ _)));
     [ unfold upload_events, upload_path, upload_filename; cbn [app];
       eexists _, _; split; reflexivity
     | unfold upload_filename; apply basename_join; by_compute
     | unfold upload_path, upload_filename; apply lookup_insert_eq
     | symmetry; assumption ]).
Qed.


(** *** URLs and files *)

Lemma endswith_last (x : str) c p : Py.endswith (x ++ [c]) [p] = (p =? c)%N.
Proof.
  unfold Py.endswith. rewrite reverse_app.
  change (reverse [c]) with [c]. change (reverse [p]) with [p].
  cbn [app Py.startswith]. apply andb_true_r.
Qed.

Lemma dir_prefix_open (x : str) c :
  c <> os_path.sep -> dir_prefix (x ++ [c]) = x ++ [c] ++ [os_path.sep].
Proof.
  intros Hc. unfold dir_prefix.
  rewrite bool_decide_eq_false_2 by (by destruct x).
  rewrite endswith_last.
  destruct (N.eqb_spec os_path.sep c); [congruence|].
  cbn [orb]. by rewrite <- app_assoc.
Qed.

(** Joining a directory, a sub-directory and a name in two steps or in
    one gives the same path. *)
Lemma join_subdir a (d : str) c (name : str) :
  Py.startswith (d ++ [c]) [os_path.sep] = false ->
  Py.startswith (d ++ [c] ++ [os_path.sep] ++ name) [os_path.sep] = false ->
  c <> os_path.sep ->
  Py.startswith name [os_path.sep] = false ->
  os_path.join (os_path.join a (d ++ [c])) name
  = os_path.join a (d ++ [c] ++ [os_path.sep] ++ name).
Proof.
  intros Hd Hd' Hc Hn.
  rewrite (join_relative a (d ++ [c])) by done.
  rewrite (join_relative _ name) by done.
  rewrite (join_relative a _) by done.
  rewrite (app_assoc (dir_prefix a)), dir_prefix_open by done.
  by rewrite <- !app_assoc.
Qed.

Lemma static_file_upload u :
  static_file (lit "/static/uploads/" ++ hex u ++ lit ".jpg")
  = Some (os_path.join UPLOADS_DIR (hex u ++ lit ".jpg")).
Proof.
  unfold static_file, UPLOADS_DIR.
  change (Py.startswith _ (lit "/static/")) with true. cbn iota.
  change (Py.slice_from 8 _) with (lit "upload" ++ [115%N] ++ [os_path.sep] ++ hex u ++ lit ".jpg").
  change (lit "uploads") with (lit "upload" ++ [115%N]).
  rewrite join_subdir; [done | done | done | done |].
  apply name_relative.
Qed.

Lemma static_file_audio u sfx :
  static_file (lit "/static/audio/" ++ hex u ++ sfx)
  = Some (os_path.join AUDIO_DIR (hex u ++ sfx)).
Proof.
  unfold static_file, AUDIO_DIR.
  change (Py.startswith _ (lit "/static/")) with true. cbn iota.
  change (Py.slice_from 8 _) with (lit "audi" ++ [111%N] ++ [os_path.sep] ++ hex u ++ sfx).
  change (lit "audio") with (lit "audi" ++ [111%N]).
  rewrite join_subdir; [done | done | done | done |].
  apply name_relative.
Qed.

(** Every URL of a response leads, through the static mount, to the file
    the request produced: [image_url] to the stored upload, each audio URL
    to the file the speech adapter was asked to write, in the order kn,
    en, hi.  A response without audio URLs comes from a request that
    started no synthesis. *)
Theorem urls_resolve_to_files file w sched r w' evs :
  run_process file w sched = (Returned r, w', evs) ->
  (exists p, static_file (image_url r) = Some p
     /\ written_paths evs = [p]
     /\ fs w' !! p = Some (read file))
  /\ (error r = None ->
      exists f_kn f_en f_hi,
        tts_files evs = [f_kn; f_en; f_hi]
        /\ audio_kn r ≫= static_file = Some f_kn
        /\ audio_en r ≫= static_file = Some f_en
        /\ audio_hi r ≫= static_file = Some f_hi)
  /\ (error r <> None ->
      tts_files evs = []
      /\ audio_kn r = None /\ audio_en r = None /\ audio_hi r = None).
Proof.
  intros Hrun%run_process_sound.
  inversion Hrun; subst.
  - split; [|split; [done|]].
    + exists (upload_path w). cbn [no_text image_url].
      unfold upload_path at 1, upload_filename.
      split; [apply static_file_upload|].
      split; [observe; reflexivity | apply lookup_insert_eq].
    + intros _. split; [observe; reflexivity | by repeat split].
  - split; [|split; [|done]].
    + exists (upload_path w). cbn [full image_url].
      unfold upload_path at 1, upload_filename.
      split; [apply static_file_upload|].
      split; [observe; reflexivity | apply lookup_insert_eq].
    + intros _.
      exists (audio_kn_file w), (audio_en_file w), (audio_hi_file w).
      split; [observe; reflexivity|].
      cbn [full audio_kn audio_en audio_hi mbind option_bind].
      unfold audio_kn_file, audio_en_file, audio_hi_file.
      rewrite !basename_join by by_compute.
      by rewrite !static_file_audio.
Qed.

(** Every file of a request lies directly in its directory and has a name
    made of a UUID and a fixed suffix: 32 hexadecimal digits and [.jpg]
    in the uploads directory, 32 digits and one of the three audio
    suffixes in the audio directory.  No name contains a separator, and
    nothing of the request (its file name, content type or bytes) enters
    a path. *)
Theorem files_stay_in_their_directory file w sched o w' evs :
  run_process file w sched = (o, w', evs) ->
  (forall p, p ∈ written_paths evs ->
     exists u, u ∈ uuids_of evs
       /\ p = dir_prefix UPLOADS_DIR ++ hex u ++ lit ".jpg"
       /\ os_path.basename p = hex u ++ lit ".jpg"
       /\ (os_path.sep ∉ hex u ++ lit ".jpg")
       /\ length (hex u ++ lit ".jpg") = 36)
  /\ (forall p, p ∈ tts_files evs ->
      exists u sfx, u ∈ uuids_of evs
        /\ sfx ∈ [lit "_kn.mp3"; lit "_en.mp3"; lit "_hi.mp3"]
        /\ p = dir_prefix AUDIO_DIR ++ hex u ++ sfx
        /\ os_path.basename p = hex u ++ sfx
        /\ (os_path.sep ∉ hex u ++ sfx)
        /\ length (hex u ++ sfx) = 39).
Proof.
  intros Hrun%run_process_sound.
  apply run_names in Hrun as (up & au & -> & -> & Hup & Hau & Sup & Sau).
  rewrite Forall_forall in Hup, Hau.
  assert (forall u sfx, os_path.sep ∉ sfx -> os_path.sep ∉ hex u ++ sfx) as Hsep.
  { intros u sfx Hs. rewrite elem_of_app. intros [?%hex_no_sep | ?]; done. }
  assert (forall u (sfx : str), length (hex u ++ sfx) = 32 + length sfx) as Hlen.
  { intros u sfx. rewrite length_app. unfold hex. by rewrite hexdigits_length. }
  split.
  - intros p ([u sfx] & -> & Hin)%list_elem_of_fmap.
    pose proof (Hup _ Hin) as Hs; cbn [snd] in Hs; subst sfx.
    exists u. unfold in_dir, generated_name; cbn [fst snd].
    split; [|split; [apply join_name|]].
    + apply (elem_of_sublist up.*1); [|exact Sup].
      apply list_elem_of_fmap. by exists (u, lit ".jpg").
    + split; [apply basename_join; by_compute|].
      split; [apply Hsep; by_compute | by rewrite Hlen].
  - intros p ([u sfx] & -> & Hin)%list_elem_of_fmap.
    pose proof (Hau _ Hin) as Hs; cbn [snd] in Hs.
    exists u, sfx. unfold in_dir, generated_name; cbn [fst snd].
    split.
    { apply (elem_of_sublist au.*1); [|exact Sau].
      apply list_elem_of_fmap. by exists (u, sfx). }
    split; [done|]. split; [apply join_name|].
    rewrite !elem_of_cons, elem_of_nil in Hs.
    destruct Hs as [-> | [-> | [-> | []]]];
      (split; [apply basename_join; by_compute|]);
      (split; [apply Hsep; by_compute | by rewrite Hlen]).
Qed.

(** Two requests served one after the other, both uploads written
    without an error.  When the two upload UUIDs differ both uploads are
    in the file system afterwards, each with its own bytes; when the second
    request draws the UUID of the first again, its upload replaces the
    first one (the file is opened for writing without a check). *)
Theorem uploads_accumulate file1 file2 w sched1 sched2 o1 w1 evs1 o2 w2 evs2 :
  run_process file1 w sched1 = (o1, w1, evs1) ->
  run_process file2 w1 sched2 = (o2, w2, evs2) ->
  accepted file1 -> accepted file2 ->
  storing w = DiskOk -> storing w1 = DiskOk ->
  fs w2 !! upload_path w1 = Some (read file2)
  /\ (int (nth_uuid w1 0) <> int (nth_uuid w 0) ->
      fs w2 !! upload_path w = Some (read file1))
  /\ (nth_uuid w1 0 = nth_uuid w 0 ->
      upload_path w1 = upload_path w
      /\ fs w2 !! upload_path w = Some (read file2)).
Proof.
  intros Hrun1%run_process_sound Hrun2%run_process_sound Hacc1 Hacc2 Hok1 Hok2.
  apply accepted_run_world in Hrun1 as (Hfs1 & _ & _); [|done|done].
  apply accepted_run_world in Hrun2 as (Hfs2 & _ & _); [|done|done].
  rewrite Hfs2, Hfs1. split; [apply lookup_insert_eq|]. split.
  - intros Hne. rewrite lookup_insert_ne, lookup_insert_eq; [done|].
    unfold upload_path, upload_filename.
    by intros [? _]%join_name_inj.
  - intros Heq. unfold upload_path, upload_filename. rewrite Heq.
    split; [done | apply lookup_insert_eq].
Qed.


(** *** A failing translation *)

(** A schedule that resumes the handler at once lets no task complete
    before. *)
Lemma linger_now l sched :
  hd 0 sched = 0 -> linger l sched = (l, tail sched, []).
Proof. by destruct sched as [|[|n] sched]. Qed.

(** When the first of three running tasks to complete is an awaited one
    that fails, the gather of tasks 0 and 1 has failed by then; what
    follows is the time until the handler is resumed. *)
Lemma await_first_failure e (oe1 : option Exn) sched :
  hd 0 sched `mod` 3 = 0 ->
  await_all 3 [(0, Some e); (1, oe1)] (mkLoop 3 [0; 1; 2]) sched
  = let '(l', sched', evs) := linger (mkLoop 3 [1; 2]) (tail sched) in
    (Failed e, l', sched', EvDone 0 :: evs).
Proof.
  intros Hhd.
  set (ts := [(0, Some e); (1, oe1)]).
  assert (first_failed (mkLoop 3 [0; 1; 2]) ts = None) as F0
    by (by destruct oe1).
  assert (forallb (fun t => finished (mkLoop 3 [0; 1; 2]) t.1) ts = false)
    as A0 by reflexivity.
  assert (first_failed (mkLoop 3 [1; 2]) ts = Some e) as F1 by reflexivity.
  change (await_all 3 ts (mkLoop 3 [0; 1; 2]) sched)
    with (match first_failed (mkLoop 3 [0; 1; 2]) ts with
          | Some e' => resume (Failed e') (mkLoop 3 [0; 1; 2]) sched
          | None =>
              if forallb (fun t => finished (mkLoop 3 [0; 1; 2]) t.1) ts
              then resume Ready (mkLoop 3 [0; 1; 2]) sched
              else
                match [0; 1; 2] !! (hd 0 sched `mod` 3) with
                | None => (Stalled, mkLoop 3 [0; 1; 2], sched, [])
                | Some t =>
                    let '(a, l', sched', evs) :=
                      await_all 2 ts (complete t (mkLoop 3 [0; 1; 2]))
                        (tail sched) in
                    (a, l', sched', EvDone t :: evs)
                end
          end).
  rewrite F0, A0, Hhd.
  change ([0; 1; 2] !! 0) with (Some 0). cbv iota beta.
  change (complete 0 (mkLoop 3 [0; 1; 2])) with (mkLoop 3 [1; 2]).
  change (await_all 2 ts (mkLoop 3 [1; 2]) (tail sched))
    with (match first_failed (mkLoop 3 [1; 2]) ts with
          | Some e' => resume (Failed e') (mkLoop 3 [1; 2]) (tail sched)
          | None => await_all 2 ts (mkLoop 3 [1; 2]) (tail sched)
          end).
  rewrite F1. unfold resume.
  by destruct (linger (mkLoop 3 [1; 2]) (tail sched)) as [[l' sched'] evs].
Qed.

(** The handler fails fast and cleans nothing up.  When the English
    translation fails and is the first task to complete, the handler
    raises its exception whatever the Hindi translation and the Kannada
    synthesis do: both have been started, neither is awaited or
    cancelled, each may or may not complete before the handler is
    resumed, and when the handler is resumed at once neither has; the
    English and the Hindi synthesis are never created. *)
Theorem failed_translation_ends_request
    file w sched image0 image text e :
  accepted file ->
  storing w = DiskOk ->
  Image_open (read file) = inr image0 ->
  to_rgb image0 = inr image ->
  extract_text image (upload_filename w) = inr text ->
  Py.strip text <> [] ->
  translate_en text = inl e ->
  hd 0 sched `mod` 3 = 0 ->
  exists w' evs ds,
    run_process file w sched = (Raised e, w', evs)
    /\ evs = upload_events file w
              ++ [EvOcr image (upload_filename w) (inr text)]
              ++ wave1 w text ++ EvDone 0 :: (EvDone <$> ds)
    /\ created evs
       = [(0, CallTranslate (lit "kn") (lit "en") text);
          (1, CallTranslate (lit "kn") (lit "hi") text);
          (2, CallTTS text (lit "kn") (audio_kn_file w))]
    /\ (forall t, t ∈ ds -> t = 1 \/ t = 2)
    /\ (hd 0 (tail sched) = 0 -> ds = []).
Proof.
  intros (ct & Hct & Himg & Hne) Hok%write_error_None
    Hopen Hrgb Hocr Hblank Hen Hhd.
  destruct (linger (mkLoop 3 [1; 2]) (tail sched)) as [[l' sched'] evs'] eqn:L.
  destruct (linger_inv _ _ _ _ _ L) as (ds & -> & _ & _ & Hd).
  eexists _, _, ds. split; [|split; [reflexivity|split; [|split]]].
  - unfold run_process, process. rewrite Hct, Himg.
    assert (forall X Y : Async Payload,
              match read file with [] => X | _ :: _ => Y end = Y) as Hbody
      by (intros; by destruct (read file)).
    rewrite Hbody.
    cbn [negb exec perform fs entropy drawn disk writes storing].
    change (disk w (writes w)) with (storing w).
    rewrite Hok, (write_to_ok _ _ _ _ Hok).
    cbn [exec perform fs entropy drawn disk writes].
    rewrite Hopen. cbn [try_].
    change (if bool_decide (mode image0 <> lit "RGB")
            then convert image0 (lit "RGB") else inr image0)
      with (to_rgb image0).
    rewrite Hrgb. cbn [try_ exec perform].
    change (hex (entropy w (drawn w)) ++ lit ".jpg") with (upload_filename w).
    rewrite Hocr. cbn [of_result].
    rewrite (bool_decide_eq_false_2 _ Hblank).
    cbn [exec perform fs entropy drawn disk writes next_tid running app length].
    unfold awaitable, failure. cbn [tid coro result_of].
    change (GoogleTranslator_translate (lit "kn") (lit "en") text)
      with (translate_en text).
    rewrite Hen, await_first_failure by done.
    rewrite L. reflexivity.
  - change (EvDone 0 :: (EvDone <$> ds)) with (EvDone <$> (0 :: ds)).
    observe. reflexivity.
  - intros t Ht. apply Hd in Ht. cbn [running] in Ht.
    rewrite !elem_of_cons, elem_of_nil in Ht. tauto.
  - intros Hnow. rewrite (linger_now _ _ Hnow) in L.
    injection L as _ _ L. symmetry in L. by apply fmap_nil_inv in L.
Qed.

End Further.

(** ** The properties on concrete requests *)

Import Demo.

Example run_not_image :
  run_process txt world []
  = (Raised (HTTPException 400 (lit "File must be an image")), world, []).
Proof. reflexivity. Qed.

Example run_blank_status : status (outcome_of jpg_blank []) = Some 200%Z.
Proof. vm_compute. reflexivity. Qed.

Example run_translation_failure_status :
  status (outcome_of jpg_hash []) = Some 500%Z.
Proof. vm_compute. reflexivity. Qed.

Example run_disk_full :
  run_process png_ab world_full []
  = (Raised (OSError (lit "No space left on device")),
     not_stored png_ab world_full,
     [EvUuid (nth_uuid world_full 0);
      EvWriteFailed (upload_path world_full)
        (OSError (lit "No space left on device"))])
  /\ fs (not_stored png_ab world_full) !! upload_path world_full = Some []
  /\ status (run_process png_ab world_full []).1.1 = Some 500%Z.
Proof. vm_compute. repeat split. Qed.

(** The handler is resumed late: all three tasks of the first wave have
    completed when the second wave is created. *)
Example run_resumed_late :
  omap (fun e => match e with
                 | EvCreate t _ => Some (inl t)
                 | EvDone t => Some (inr t)
                 | _ => None
                 end) (trace_of png_ab [0; 0; 1])
  = [inl 0; inl 1; inl 2; inr 0; inr 1; inr 2; inl 3; inl 4; inr 3; inr 4].
Proof. vm_compute. reflexivity. Qed.

Example run_full_created :
  created (trace_of png_ab [2; 1; 0])
  = five_tasks world (lit "ab") (lit "en:ab") (lit "hi:ab").
Proof. vm_compute. reflexivity. Qed.

Example upload_name :
  upload_filename world = lit "3f2b8c1e9d4a4f6b8e7a1c2d3e4f5a6b.jpg".
Proof. vm_compute. reflexivity. Qed.

Example upload_path_in_app :
  upload_path world
  = lit "/app/static/uploads/3f2b8c1e9d4a4f6b8e7a1c2d3e4f5a6b.jpg".
Proof. vm_compute. reflexivity. Qed.

Example basename_of_audio :
  os_path.basename (audio_kn_file world)
  = lit "0a1b2c3d4e5f4a6b9c8d7e6f5a4b3c2d_kn.mp3".
Proof. vm_compute. reflexivity. Qed.

Example strip_example :
  Py.strip (lit "  ab c ") = lit "ab c" /\ Py.strip [160%N; 32%N; 10%N] = [].
Proof. split; reflexivity. Qed.

(** C1, as stated, fails: with the translations finishing first the
    English synthesis (task 3) is created while the Kannada synthesis
    (task 2) of the first wave is still running. *)
Lemma wave_barrier_counterexample :
  ocr_text_nonblank (trace_of png_ab []) = true
  /\ created (trace_of png_ab [])
     = five_tasks world (lit "ab") (lit "en:ab") (lit "hi:ab")
  /\ waits_for (trace_of png_ab []) 2 3 = false
  /\ barrier is_wave1 (trace_of png_ab []) = false.
Proof. vm_compute. repeat split. Qed.

(** C5, as stated, fails: a rejected upload never reaches the OCR
    adapter, and when the English translation fails on a non-blank text
    the English and the Hindi synthesis are never started. *)
Lemma exactly_once_counterexample :
  (ocr_calls (trace_of txt []) = 0
   /\ ~ each_call_exactly_once (trace_of txt []))
  /\ (ocr_text_nonblank (trace_of jpg_hash []) = true
      /\ tts_calls (lit "en") (trace_of jpg_hash []) = 0
      /\ tts_calls (lit "hi") (trace_of jpg_hash []) = 0
      /\ ~ each_call_exactly_once (trace_of jpg_hash [])).
Proof.
  split.
  - split; [reflexivity|]. intros [Hocr _]. vm_compute in Hocr. discriminate.
  - split; [vm_compute; reflexivity|].
    split; [vm_compute; reflexivity|].
    split; [vm_compute; reflexivity|].
    intros [_ Hall]. destruct Hall as (_ & _ & _ & Hen & _).
    + vm_compute. reflexivity.
    + vm_compute in Hen. discriminate.
Qed.

Lemma invalid_upload_rejected_witness :
  (content_type txt = Some (lit "text/plain")
   /\ Py.startswith (lit "text/plain") (lit "image/") = false
   /\ exists o, run_process txt world [] = (o, world, [])
        /\ o = Raised (HTTPException 400 (lit "File must be an image"))
        /\ status o = Some 400%Z)
  /\ (content_type empty_png = Some (lit "image/png")
      /\ Py.startswith (lit "image/png") (lit "image/") = true
      /\ read empty_png = []
      /\ exists o, run_process empty_png world [] = (o, world, [])
           /\ o = Raised (HTTPException 400 (lit "Empty file"))
           /\ status o = Some 400%Z).
Proof.
  split.
  - split; [reflexivity|]. split; [reflexivity|].
    apply (proj1 (invalid_upload_rejected txt world []
                    (lit "text/plain") eq_refl)).
    reflexivity.
  - split; [reflexivity|]. split; [reflexivity|]. split; [reflexivity|].
    apply (proj2 (invalid_upload_rejected empty_png world []
                    (lit "image/png") eq_refl)); reflexivity.
Defined.

Lemma blank_text_short_circuit_witness :
  created (trace_of jpg_blank []) = []
  /\ exists r, outcome_of jpg_blank [] = Returned r
       /\ text_kn r = [] /\ text_en r = [] /\ text_hi r = []
       /\ audio_kn r = None /\ audio_en r = None /\ audio_hi r = None
       /\ error r = Some (lit "No text found").
Proof.
  apply (blank_text_short_circuit jpg_blank world []
           (outcome_of jpg_blank []) (world_after jpg_blank [])
           (trace_of jpg_blank [])
           (mkImage (lit "RGB") [Byte.x20]) (upload_filename world) [32%N]).
  - vm_compute. reflexivity.
  - apply (list_elem_of_lookup_2 _ 2). vm_compute. reflexivity.
  - repeat constructor.
Defined.

Lemma upload_stored_as_jpg_witness :
  content_type png_ab = Some (lit "image/png")
  /\ Py.startswith (lit "image/png") (lit "image/") = true
  /\ read png_ab <> []
  /\ storing world = DiskOk
  /\ let u := entropy world (drawn world) in
     let path := os_path.join UPLOADS_DIR (hex u ++ lit ".jpg") in
     Py.endswith path (lit ".jpg") = true
     /\ os_path.basename path = hex u ++ lit ".jpg"
     /\ (exists evs', trace_of png_ab [] = EvUuid u :: EvWrite path (read png_ab) :: evs')
     /\ written_paths (trace_of png_ab []) = [path]
     /\ fs (world_after png_ab []) = <[path := read png_ab]> (fs world)
     /\ fs (world_after png_ab []) !! path = Some (read png_ab).
Proof.
  split; [reflexivity|]. split; [reflexivity|]. split; [discriminate|].
  split; [reflexivity|].
  destruct (upload_stored_as_jpg png_ab world [] (lit "image/png")
              (outcome_of png_ab []) (world_after png_ab [])
              (trace_of png_ab []))
    as (Hend & Hbase & Hok & _).
  - reflexivity.
  - reflexivity.
  - discriminate.
  - vm_compute. reflexivity.
  - destruct (Hok eq_refl) as (Hevs & Hpaths & Hfs & Hfile).
    repeat split; assumption.
Defined.

Lemma no_text_keeps_upload_witness :
  let u := entropy world (drawn world) in
  let path := os_path.join UPLOADS_DIR (hex u ++ lit ".jpg") in
  (exists image text,
     trace_of jpg_blank []
     = [EvUuid u; EvWrite path (read jpg_blank);
        EvOcr image (hex u ++ lit ".jpg") (inr text)])
  /\ error (no_text (upload_filename world)) = Some (lit "No text found")
  /\ image_url (no_text (upload_filename world))
     = lit "/static/uploads/" ++ os_path.basename path
  /\ fs (world_after jpg_blank []) !! path = Some (read jpg_blank).
Proof.
  apply (no_text_keeps_upload jpg_blank world []).
  - vm_compute. reflexivity.
  - discriminate.
Defined.

Lemma ocr_image_is_rgb_witness :
  mode (mkImage (lit "RGB") [Byte.x61; Byte.x62]) = lit "RGB"
  /\ exists image0,
       Image_open (read png_ab) = inr image0
       /\ (mode image0 = lit "RGB" ->
           mkImage (lit "RGB") [Byte.x61; Byte.x62] = image0)
       /\ (mode image0 <> lit "RGB" ->
           convert image0 (lit "RGB")
           = inr (mkImage (lit "RGB") [Byte.x61; Byte.x62])).
Proof.
  apply (ocr_image_is_rgb png_ab world [] (outcome_of png_ab [])
           (world_after png_ab []) (trace_of png_ab [])
           (mkImage (lit "RGB") [Byte.x61; Byte.x62]) (upload_filename world)
           (inr (lit "ab"))).
  - intros i i' E. injection E as <-. reflexivity.
  - vm_compute. reflexivity.
  - apply (list_elem_of_lookup_2 _ 2). vm_compute. reflexivity.
Defined.

Lemma full_payload_witness :
  (forall r, outcome_of png_ab [2; 1; 0] = Returned r ->
     image_url r = lit "/static/uploads/" ++ hex (nth_uuid world 0) ++ lit ".jpg"
     /\ text_kn r = lit "ab" /\ text_kn r <> []
     /\ translate_en (lit "ab") = inr (text_en r)
     /\ translate_hi (lit "ab") = inr (text_hi r)
     /\ audio_kn r = Some (lit "/static/audio/" ++ hex (nth_uuid world 1) ++ lit "_kn.mp3")
     /\ audio_en r = Some (lit "/static/audio/" ++ hex (nth_uuid world 2) ++ lit "_en.mp3")
     /\ audio_hi r = Some (lit "/static/audio/" ++ hex (nth_uuid world 3) ++ lit "_hi.mp3")
     /\ error r = None)
  /\ (forall t_en t_hi,
        translate_en (lit "ab") = inr t_en ->
        translate_hi (lit "ab") = inr t_hi ->
        text_to_speech (lit "ab") (lit "kn") (audio_kn_file world) = inr tt ->
        text_to_speech t_en (lit "en") (audio_en_file world) = inr tt ->
        text_to_speech t_hi (lit "hi") (audio_hi_file world) = inr tt ->
        exists r, outcome_of png_ab [2; 1; 0] = Returned r).
Proof.
  apply (full_payload png_ab world [2; 1; 0] (outcome_of png_ab [2; 1; 0])
           (world_after png_ab [2; 1; 0]) (trace_of png_ab [2; 1; 0])
           (mkImage (lit "RGB") [Byte.x61; Byte.x62]) (upload_filename world)
           (lit "ab")).
  - vm_compute. reflexivity.
  - apply (list_elem_of_lookup_2 _ 2). vm_compute. reflexivity.
  - vm_compute. discriminate.
Defined.

Lemma speech_matches_language_witness :
  let r := full world (lit "ab") (lit "en:ab") (lit "hi:ab") in
  let evs := trace_of png_ab [1; 1; 0; 2] in
  (forall t text lang filename,
     EvCreate t (CallTTS text lang filename) ∈ evs ->
     (Py.endswith filename (lit "_kn.mp3") = true ->
      text = text_kn r /\ lang = lit "kn")
     /\ (Py.endswith filename (lit "_en.mp3") = true ->
         text = text_en r /\ lang = lit "en")
     /\ (Py.endswith filename (lit "_hi.mp3") = true ->
         text = text_hi r /\ lang = lit "hi"))
  /\ translate_en (text_kn r) = inr (text_en r)
  /\ translate_hi (text_kn r) = inr (text_hi r)
  /\ exists f_kn f_en f_hi,
       tts_files evs = [f_kn; f_en; f_hi]
       /\ Py.endswith f_kn (lit "_kn.mp3") = true
       /\ Py.endswith f_en (lit "_en.mp3") = true
       /\ Py.endswith f_hi (lit "_hi.mp3") = true
       /\ EvCreate 2 (CallTTS (text_kn r) (lit "kn") f_kn) ∈ evs
       /\ EvCreate 3 (CallTTS (text_en r) (lit "en") f_en) ∈ evs
       /\ EvCreate 4 (CallTTS (text_hi r) (lit "hi") f_hi) ∈ evs.
Proof.
  apply (speech_matches_language png_ab world [1; 1; 0; 2]
           (full world (lit "ab") (lit "en:ab") (lit "hi:ab"))
           (world_after png_ab [1; 1; 0; 2])).
  - vm_compute. reflexivity.
  - reflexivity.
Defined.

Lemma distinct_uuids_distinct_names_witness :
  let evs1 := trace_of png_ab [] in
  let evs2 := trace_of_second png_ab [2; 0] in
  NoDup (int <$> (uuids_of evs1 ++ uuids_of evs2))
  /\ length (uuids_of evs1 ++ uuids_of evs2) = 8
  /\ NoDup (os_path.basename <$> (written_paths evs1 ++ written_paths evs2))
  /\ NoDup (os_path.basename <$> (tts_files evs1 ++ tts_files evs2))
  /\ NoDup (written_paths evs1 ++ written_paths evs2)
  /\ NoDup (tts_files evs1 ++ tts_files evs2).
Proof.
  intros evs1 evs2.
  assert (NoDup (int <$> (uuids_of evs1 ++ uuids_of evs2))) as Hnd
    by (apply (@bool_decide_unpack _ _); vm_compute; exact I).
  split; [exact Hnd|]. split; [vm_compute; reflexivity|].
  apply (distinct_uuids_distinct_names
           png_ab world [] (outcome_of png_ab []) (world_after png_ab []) evs1
           png_ab (world_after png_ab []) [2; 0]
           (run_process png_ab (world_after png_ab []) [2; 0]).1.1
           (run_process png_ab (world_after png_ab []) [2; 0]).1.2 evs2).
  - vm_compute. reflexivity.
  - vm_compute. reflexivity.
  - exact Hnd.
Defined.

Lemma second_wave_waits_for_translations_witness :
  let evs := trace_of png_ab [] in
  (exists pre post audio_kn_file,
     evs = pre ++ [EvCreate 0 (CallTranslate (lit "kn") (lit "en") (lit "ab"));
                   EvCreate 1 (CallTranslate (lit "kn") (lit "hi") (lit "ab"));
                   EvCreate 2 (CallTTS (lit "ab") (lit "kn") audio_kn_file)] ++ post
     /\ created pre = []
     /\ existsb (fun e => match e with EvDone _ => true | _ => false end) pre = false)
  /\ barrier is_translation evs = true
  /\ (forall r, outcome_of png_ab [] = Returned r -> all_done evs = true).
Proof.
  apply (second_wave_waits_for_translations png_ab world []
           (outcome_of png_ab []) (world_after png_ab []) (trace_of png_ab [])
           (mkImage (lit "RGB") [Byte.x61; Byte.x62]) (upload_filename world)
           (lit "ab")).
  - vm_compute. reflexivity.
  - apply (list_elem_of_lookup_2 _ 2). vm_compute. reflexivity.
  - vm_compute. discriminate.
Defined.

Lemma each_call_at_most_once_witness :
  ocr_calls (trace_of jpg_hash []) = 1
  /\ translate_calls (lit "en") (trace_of jpg_hash []) = 1
  /\ tts_calls (lit "kn") (trace_of jpg_hash []) = 1
  /\ tts_calls (lit "en") (trace_of jpg_hash []) <= 1.
Proof.
  destruct (each_call_at_most_once jpg_hash world []
              (outcome_of jpg_hash []) (world_after jpg_hash [])
              (trace_of jpg_hash []))
    as ((_ & _ & _ & _ & Hen & _) & Hocr & Hwave1 & _).
  - vm_compute. reflexivity.
  - destruct (Hwave1 (mkImage (lit "RGB") [Byte.x23; Byte.x61])
                (upload_filename world) (lit "#a"))
      as (Htr & _ & Hkn & _).
    + apply (list_elem_of_lookup_2 _ 2). vm_compute. reflexivity.
    + vm_compute. discriminate.
    + split; [|repeat split; assumption].
      apply Hocr.
      * exists (lit "image/jpeg"). repeat split; (reflexivity || discriminate).
      * reflexivity.
      * exists (mkImage (lit "RGB") [Byte.x23; Byte.x61]),
          (mkImage (lit "RGB") [Byte.x23; Byte.x61]).
        split; reflexivity.
Defined.

Lemma no_content_type_server_error_witness :
  content_type untyped = None
  /\ exists o, run_process untyped world [] = (o, world, [])
       /\ o = Raised AttributeError
       /\ status o = Some 500%Z
       /\ status o <> Some 400%Z.
Proof.
  split; [reflexivity|].
  apply (no_content_type_server_error untyped world []). reflexivity.
Defined.

(** ** The further properties on concrete requests *)


Lemma raised_by_storage_or_collaborator_witness :
  let e := OSError (lit "No space left on device") in
  (write_error (storing world_full) = Some e
   /\ EvWriteFailed (upload_path world_full) e
      ∈ (run_process png_ab world_full []).2)
  \/ Image_open (read png_ab) = inl e
  \/ (exists image0,
        Image_open (read png_ab) = inr image0
        /\ mode image0 <> lit "RGB"
        /\ convert image0 (lit "RGB") = inl e)
  \/ (exists image,
        extract_text image (upload_filename world_full) = inl e
        /\ EvOcr image (upload_filename world_full) (inl e)
           ∈ (run_process png_ab world_full []).2)
  \/ (exists t c, (t, c) ∈ created (run_process png_ab world_full []).2
                  /\ call_failure c = Some e).
Proof.
  apply (raised_by_storage_or_collaborator png_ab world_full []
           (OSError (lit "No space left on device"))
           (run_process png_ab world_full []).1.2).
  - vm_compute. reflexivity.
  - exists (lit "image/png"). repeat split; (reflexivity || discriminate).
Defined.

Lemma storage_failure_is_fatal_witness :
  let e := OSError (lit "No space left on device") in
  let o := (run_process png_ab world_full []).1.1 in
  let w' := (run_process png_ab world_full []).1.2 in
  let evs := (run_process png_ab world_full []).2 in
  o = Raised e
  /\ ((forall code detail, e <> HTTPException code detail) ->
      status o = Some 500%Z)
  /\ evs = [EvUuid (nth_uuid world_full 0);
            EvWriteFailed (upload_path world_full) e]
  /\ ocr_calls evs = 0 /\ created evs = [] /\ written_paths evs = []
  /\ (forall p, p <> upload_path world_full -> fs w' !! p = fs world_full !! p)
  /\ (forall e', storing world_full = OpenRaises e' -> fs w' = fs world_full)
  /\ (forall kept e', storing world_full = WriteRaises kept e' ->
      fs w' !! upload_path world_full = Some (take kept (read png_ab))).
Proof.
  apply (storage_failure_is_fatal png_ab world_full []).
  - vm_compute. reflexivity.
  - exists (lit "image/png"). repeat split; (reflexivity || discriminate).
  - reflexivity.
Defined.

Lemma payload_only_after_success_witness :
  (forall image filename result,
     EvOcr image filename result ∈ trace_of png_ab [] ->
     exists text, result = inr text)
  /\ (forall t c, (t, c) ∈ created (trace_of png_ab []) -> call_failure c = None)
  /\ all_done (trace_of png_ab []) = true.
Proof.
  apply (payload_only_after_success png_ab world []
           (full world (lit "ab") (lit "en:ab") (lit "hi:ab"))
           (world_after png_ab [])).
  vm_compute. reflexivity.
Defined.

Lemma failure_before_tasks_witness :
  outcome_of garbage [] = Raised (AdapterError (lit "cannot identify image file"))
  /\ ocr_calls (trace_of garbage []) = 0
  /\ created (trace_of garbage []) = []
  /\ written_paths (trace_of garbage []) = [upload_path world]
  /\ fs (world_after garbage []) !! upload_path world = Some (read garbage).
Proof.
  destruct (failure_before_tasks garbage world [] (outcome_of garbage [])
              (world_after garbage []) (trace_of garbage []))
    as (Hdecode & _ & Hfs).
  - vm_compute. reflexivity.
  - exists (lit "image/png"). repeat split; (reflexivity || discriminate).
  - reflexivity.
  - destruct (Hdecode (AdapterError (lit "cannot identify image file")))
      as (Ho & Hocr & Hc & Hw).
    + left. reflexivity.
    + repeat split; assumption.
Defined.

Lemma translations_of_ocr_text_witness :
  lit "kn" = lit "kn"
  /\ (1 = 0 /\ lit "hi" = lit "en" \/ 1 = 1 /\ lit "hi" = lit "hi")
  /\ Py.strip (lit "ab") <> []
  /\ exists image,
       extract_text image (upload_filename world) = inr (lit "ab")
       /\ EvOcr image (upload_filename world) (inr (lit "ab")) ∈ trace_of png_ab [].
Proof.
  apply (translations_of_ocr_text png_ab world [] (outcome_of png_ab [])
           (world_after png_ab []) (trace_of png_ab []) 1).
  - vm_compute. reflexivity.
  - apply (list_elem_of_lookup_2 _ 7). vm_compute. reflexivity.
Defined.

Lemma ocr_gets_stored_name_witness :
  let filename := upload_filename world in
  let image := mkImage (lit "RGB") [Byte.x20] in
  (exists u post,
     trace_of jpg_blank []
     = EvUuid u :: EvWrite (os_path.join UPLOADS_DIR filename) (read jpg_blank)
         :: EvOcr image filename (inr [32%N]) :: post
     /\ filename = hex u ++ lit ".jpg")
  /\ os_path.basename (os_path.join UPLOADS_DIR filename) = filename
  /\ fs (world_after jpg_blank []) !! os_path.join UPLOADS_DIR filename
     = Some (read jpg_blank)
  /\ inr [32%N] = extract_text image filename.
Proof.
  apply (ocr_gets_stored_name jpg_blank world [] (outcome_of jpg_blank [])).
  - vm_compute. reflexivity.
  - apply (list_elem_of_lookup_2 _ 2). vm_compute. reflexivity.
Defined.

Lemma urls_resolve_to_files_witness :
  let r := full world (lit "ab") (lit "en:ab") (lit "hi:ab") in
  (exists p, static_file (image_url r) = Some p
     /\ written_paths (trace_of png_ab []) = [p]
     /\ fs (world_after png_ab []) !! p = Some (read png_ab))
  /\ (error r = None ->
      exists f_kn f_en f_hi,
        tts_files (trace_of png_ab []) = [f_kn; f_en; f_hi]
        /\ audio_kn r ≫= static_file = Some f_kn
        /\ audio_en r ≫= static_file = Some f_en
        /\ audio_hi r ≫= static_file = Some f_hi)
  /\ (error r <> None ->
      tts_files (trace_of png_ab []) = []
      /\ audio_kn r = None /\ audio_en r = None /\ audio_hi r = None).
Proof.
  apply (urls_resolve_to_files png_ab world []).
  vm_compute. reflexivity.
Defined.

Lemma files_stay_in_their_directory_witness :
  (forall p, p ∈ written_paths (trace_of png_ab []) ->
     exists u, u ∈ uuids_of (trace_of png_ab [])
       /\ p = dir_prefix UPLOADS_DIR ++ hex u ++ lit ".jpg"
       /\ os_path.basename p = hex u ++ lit ".jpg"
       /\ (os_path.sep ∉ hex u ++ lit ".jpg")
       /\ length (hex u ++ lit ".jpg") = 36)
  /\ (forall p, p ∈ tts_files (trace_of png_ab []) ->
      exists u sfx, u ∈ uuids_of (trace_of png_ab [])
        /\ sfx ∈ [lit "_kn.mp3"; lit "_en.mp3"; lit "_hi.mp3"]
        /\ p = dir_prefix AUDIO_DIR ++ hex u ++ sfx
        /\ os_path.basename p = hex u ++ sfx
        /\ (os_path.sep ∉ hex u ++ sfx)
        /\ length (hex u ++ sfx) = 39).
Proof.
  apply (files_stay_in_their_directory png_ab world [] (outcome_of png_ab [])
           (world_after png_ab [])).
  vm_compute. reflexivity.
Defined.

Lemma uploads_accumulate_witness :
  let w1 := world_after png_ab [] in
  let w2 := (run_process jpg_blank w1 []).1.2 in
  fs w2 !! upload_path w1 = Some (read jpg_blank)
  /\ (int (nth_uuid w1 0) <> int (nth_uuid world 0) ->
      fs w2 !! upload_path world = Some (read png_ab))
  /\ (nth_uuid w1 0 = nth_uuid world 0 ->
      upload_path w1 = upload_path world
      /\ fs w2 !! upload_path world = Some (read jpg_blank)).
Proof.
  apply (uploads_accumulate png_ab jpg_blank world [] []
           (outcome_of png_ab []) (world_after png_ab []) (trace_of png_ab [])
           (run_process jpg_blank (world_after png_ab []) []).1.1
           (run_process jpg_blank (world_after png_ab []) []).1.2
           (run_process jpg_blank (world_after png_ab []) []).2).
  - vm_compute. reflexivity.
  - vm_compute. reflexivity.
  - exists (lit "image/png"). repeat split; (reflexivity || discriminate).
  - exists (lit "image/jpeg"). repeat split; (reflexivity || discriminate).
  - reflexivity.
  - vm_compute. reflexivity.
Defined.

Lemma failed_translation_ends_request_witness :
  exists w' evs ds,
    run_process jpg_hash world [0; 2]
    = (Raised (AdapterError (lit "translation failed")), w', evs)
    /\ evs = upload_events jpg_hash world
              ++ [EvOcr (mkImage (lit "RGB") [Byte.x23; Byte.x61])
                    (upload_filename world) (inr (lit "#a"))]
              ++ wave1 world (lit "#a") ++ EvDone 0 :: (EvDone <$> ds)
    /\ created evs
       = [(0, CallTranslate (lit "kn") (lit "en") (lit "#a"));
          (1, CallTranslate (lit "kn") (lit "hi") (lit "#a"));
          (2, CallTTS (lit "#a") (lit "kn") (audio_kn_file world))]
    /\ (forall t, t ∈ ds -> t = 1 \/ t = 2)
    /\ (hd 0 (tail [0; 2]) = 0 -> ds = []).
Proof.
  apply (@failed_translation_ends_request collaborators jpg_hash world [0; 2]
           (mkImage (lit "RGB") [Byte.x23; Byte.x61])
           (mkImage (lit "RGB") [Byte.x23; Byte.x61]) (lit "#a")
           (AdapterError (lit "translation failed"))).
  - exists (lit "image/jpeg"). repeat split; (reflexivity || discriminate).
  - reflexivity.
  - reflexivity.
  - reflexivity.
  - reflexivity.
  - vm_compute. discriminate.
  - reflexivity.
  - reflexivity.
Defined.
